(** * Cadence and astrometric-precision metrics of sims_maf

    A shallow embedding of
    [python/lsst/sims/maf/metrics/cadenceMetrics.py] and
    [python/lsst/sims/operations/maf/metrics/astroPrecMetric.py].

    Conventions of the embedding.
    - A numpy float64 is an exact rational ([Q]) in the cadence metrics and a
      real ([R]) in the astrometric metric, which needs square roots and
      powers; rounding is not modelled there.  The astrometric metric is
      read a second time in binary64, with primitive floats, in
      [AstroPrec64].  The one non-finite value the code can produce on the
      paths studied here, not-a-number, is the constructor [NaN] of
      [number].
    - A Python exception is the constructor [Raise] of [result].
    - The data slice is a numpy structured array owned by the caller.  A
      metric's [run] is a computation in the monad [M], which threads the
      caller's array, so that an in-place [dataSlice.sort] is visible in the
      final state.
    - Column names are bound at construction in the source; the embedding
      fixes one field of [visit] per column. *)

From Stdlib Require Import String Ascii.
From Stdlib Require Import List Bool Arith ZArith QArith Qround Qabs.
From Stdlib Require Import Permutation Sorted Lia Lqa.
From Stdlib Require Reals Lra.
From Stdlib Require PrimFloat.
Import ListNotations.

Set Implicit Arguments.

(** ** Python values and exceptions *)

Inductive pyerr : Type :=
| TypeError
| ZeroDivisionError
| ValueError
| IndexError.

Inductive result (A : Type) : Type :=
| Ok (a : A)
| Raise (e : pyerr).

Arguments Ok {A} a.
Arguments Raise {A} e.

Definition rbind {A B : Type} (r : result A) (k : A -> result B) : result B :=
  match r with
  | Ok a => k a
  | Raise e => Raise e
  end.

Notation "'let?' x ':=' r 'in' k" := (rbind r (fun x => k))
  (at level 10, x name, r at level 100, k at level 200).

(** A float64 (or a Python int, which the metrics mix freely with floats). *)
Inductive number : Type :=
| Num (q : Q)
| NaN.

Definition number_mul (x : number) (c : Q) : number :=
  match x with
  | Num q => Num (q * c)
  | NaN => NaN
  end.

(** [np.isnan] *)
Definition np_isnan (x : number) : bool :=
  match x with
  | Num _ => false
  | NaN => true
  end.

Definition Qltb (a b : Q) : bool := negb (Qle_bool b a).

(** ** The visit record and the caller-owned slice *)

Record visit : Type := mkVisit {
  expMJD : Q;
  night : Z;
  filter : string;
  fiveSigmaDepth : Q;
  seeing : Q
}.

(** ** numpy on one-dimensional arrays *)

Section Sorting.
Variable A : Type.
Variable leb : A -> A -> bool.

(** Stable insertion: [x] goes in front of the first element it does not
    exceed. *)
Fixpoint insert_sorted (x : A) (l : list A) : list A :=
  match l with
  | [] => [x]
  | y :: l' => if leb x y then x :: y :: l' else y :: insert_sorted x l'
  end.

Fixpoint sort (l : list A) : list A :=
  match l with
  | [] => []
  | x :: l' => insert_sorted x (sort l')
  end.
End Sorting.

(** [np.sort] on a float column, and on an integer column. *)
Definition np_sort (l : list Q) : list Q := sort Qle_bool l.
Definition np_sortZ (l : list Z) : list Z := sort Z.leb l.

(** [a.sort(order=timeCol)] on the structured array.  Visits with equal
    times keep their relative order (numpy breaks such ties on the remaining
    fields, in the order of a dtype that is fixed by the caller). *)
Definition sort_by_time (l : list visit) : list visit :=
  sort (fun a b => Qle_bool (expMJD a) (expMJD b)) l.

(** [np.diff] *)
Fixpoint np_diff (l : list Q) : list Q :=
  match l with
  | [] => []
  | x :: l' =>
      match l' with
      | [] => []
      | y :: _ => (y - x) :: np_diff l'
      end
  end.

Fixpoint np_diffZ (l : list Z) : list Z :=
  match l with
  | [] => []
  | x :: l' =>
      match l' with
      | [] => []
      | y :: _ => (y - x)%Z :: np_diffZ l'
      end
  end.

Definition Qmax2 (a b : Q) : Q := if Qle_bool a b then b else a.
Definition Qmin2 (a b : Q) : Q := if Qle_bool a b then a else b.

(** [np.max] and [np.min]; both raise [ValueError] on an empty array. *)
Definition np_max (l : list Q) : result Q :=
  match l with
  | [] => Raise ValueError
  | x :: l' => Ok (fold_left Qmax2 l' x)
  end.

Definition np_min (l : list Q) : result Q :=
  match l with
  | [] => Raise ValueError
  | x :: l' => Ok (fold_left Qmin2 l' x)
  end.

(** [np.median]: not-a-number on an empty array, the middle element of the
    sorted array for an odd size, the mean of the two middle ones otherwise. *)
Definition np_median (l : list Q) : number :=
  let s := np_sort l in
  let n := length s in
  match n with
  | O => NaN
  | _ =>
      if Nat.even n
      then Num ((nth (n / 2 - 1) s 0 + nth (n / 2) s 0) / 2)
      else Num (nth (n / 2) s 0)
  end.

(** [np.arange(1, n + 1) / float(n)] *)
Definition cum_fraction (n : nat) : list Q :=
  map (fun i => inject_Z (Z.of_nat i) / inject_Z (Z.of_nat n)) (seq 1 n).

(** [np.arange(0., stop, step)] for a non-zero step: [ceil(stop / step)]
    points [k * step]. *)
Definition np_arange (stop step : Q) : list Q :=
  map (fun k => inject_Z (Z.of_nat k) * step)
      (seq 0 (Z.to_nat (Qceiling (stop / step)))).

(** [np.searchsorted(a, v, side)] on an array [a] sorted in ascending order:
    the number of elements below [v] ([side='left']), or not above it
    ([side='right']). *)
Definition searchsorted_left (a : list Q) (v : Q) : nat :=
  length (List.filter (fun x => Qltb x v) a).

Definition searchsorted_right (a : list Q) (v : Q) : nat :=
  length (List.filter (fun x => Qle_bool x v) a).

Definition searchsortedZ_left (a : list Z) (v : Z) : nat :=
  length (List.filter (fun x => (x <? v)%Z) a).

Definition searchsortedZ_right (a : list Z) (v : Z) : nat :=
  length (List.filter (fun x => (x <=? v)%Z) a).

(** [np.where(cond(a))[0]]: the positions at which the condition holds. *)
Definition np_where {A : Type} (cond : A -> bool) (a : list A) : list nat :=
  map fst (List.filter (fun p => cond (snd p)) (combine (seq 0 (length a)) a)).

(** [a[idx]] for an index array produced by [np_where] on [a]. *)
Definition take_at {A : Type} (d : A) (a : list A) (idx : list nat) : list A :=
  map (fun i => nth i a d) idx.

(** [a[i]] for a Python integer index: negative indices count from the end,
    anything outside the array raises [IndexError]. *)
Definition py_index {A : Type} (a : list A) (i : Z) : result A :=
  let n := Z.of_nat (length a) in
  let j := (if i <? 0 then i + n else i)%Z in
  if ((j <? 0) || (n <=? j))%Z then Raise IndexError
  else match nth_error a (Z.to_nat j) with
       | Some x => Ok x
       | None => Raise IndexError
       end.

(** [a[idx]] for an arbitrary integer index array. *)
Fixpoint py_take {A : Type} (a : list A) (idx : list Z) : result (list A) :=
  match idx with
  | [] => Ok []
  | i :: idx' =>
      let? x := py_index a i in
      let? xs := py_take a idx' in
      Ok (x :: xs)
  end.

(** [a[l:r]] for [0 <= l] and [0 <= r]. *)
Definition py_slice {A : Type} (a : list A) (l r : nat) : list A :=
  firstn (r - l) (skipn l a).

(** [np.unique]: sort, then keep an element when it differs from its
    predecessor. *)
Fixpoint drop_repeats (l : list Z) : list Z :=
  match l with
  | [] => []
  | x :: l' =>
      match l' with
      | [] => [x]
      | y :: _ => if (x =? y)%Z then drop_repeats l' else x :: drop_repeats l'
      end
  end.

Definition np_uniqueZ (l : list Z) : list Z := drop_repeats (np_sortZ l).

(** [np.unique] on the filter column.  The callers use the size of the
    result and iterate over it to count; its order plays no role. *)
Definition np_unique_str (l : list string) : list string :=
  nodup string_dec l.

(** ** The monad of a [run]: the caller's array is the state *)

Definition M (A : Type) : Type := list visit -> result A * list visit.

Definition ret {A : Type} (a : A) : M A := fun s => (Ok a, s).

Definition raise {A : Type} (e : pyerr) : M A := fun s => (Raise e, s).

Definition bind {A B : Type} (c : M A) (k : A -> M B) : M B :=
  fun s =>
    match c s with
    | (Ok a, s') => k a s'
    | (Raise e, s') => (Raise e, s')
    end.

Definition lift {A : Type} (r : result A) : M A := fun s => (r, s).

(** Reading the array the name [dataSlice] is bound to. *)
Definition read_slice : M (list visit) := fun s => (Ok s, s).

(** [dataSlice.sort(order=timeCol)]: sorts the caller's array in place. *)
Definition sort_in_place : M unit := fun s => (Ok tt, sort_by_time s).

Notation "x <- c ;; k" := (bind c (fun x => k))
  (at level 61, c at next level, right associativity).
Notation "c ;;; k" := (bind c (fun _ => k))
  (at level 61, right associativity).

(** What the caller gets back, and what the caller's array holds afterwards. *)
Definition returned {A : Type} (c : M A) (s : list visit) : result A := fst (c s).
Definition slice_after {A : Type} (c : M A) (s : list visit) : list visit := snd (c s).

Definition map2 {A B C : Type} (f : A -> B -> C) (l1 : list A) (l2 : list B) : list C :=
  map (fun p => f (fst p) (snd p)) (combine l1 l2).

(** [np.roll(a, 1)] *)
Definition np_roll1 {A : Type} (d : A) (a : list A) : list A :=
  match a with
  | [] => []
  | _ => last a d :: removelast a
  end.

(** [np.minimum.accumulate] *)
Fixpoint minimum_accumulate_from (cur : Q) (l : list Q) : list Q :=
  match l with
  | [] => []
  | x :: l' => Qmin2 cur x :: minimum_accumulate_from (Qmin2 cur x) l'
  end.

Definition minimum_accumulate (l : list Q) : list Q :=
  match l with
  | [] => []
  | x :: l' => x :: minimum_accumulate_from x l'
  end.

Definition Qnat (n : nat) : Q := inject_Z (Z.of_nat n).

(** ** UniformityMetric *)

Record UniformityMetric : Type := {
  surveyLength : Q;
  U_badval : Q
}.

Definition UniformityMetric_run (m : UniformityMetric) : M number :=
  dataSlice <- read_slice ;;
  let col := map expMJD dataSlice in
  if (length col =? 1)%nat then ret (Num 1)
  else
    lo <- lift (np_min col) ;;
    let scale := surveyLength m * 365.25 in
    if Qeq_bool scale 0 then ret NaN
    else
      let dates := np_sort (map (fun t => (t - lo) / scale) col) in
      let n_cum := cum_fraction (length dates) in
      d1 <- lift (py_index dates 1) ;;
      D_max <- lift (np_max (map Qabs (map2 (fun c d => c - d - d1) n_cum dates))) ;;
      ret (Num D_max).

(** ** RapidRevisitMetric *)

Record RapidRevisitMetric : Type := {
  minNvisits : Z;
  dTmin : Q;
  dTmax : Q;
  RR_badval : Q
}.

(** [__init__]: a configured [minNvisits] of at most 1 becomes 2. *)
Definition RapidRevisitMetric_init (minNvisits0 : Z) (dTmin0 dTmax0 badval : Q)
  : RapidRevisitMetric :=
  {| minNvisits := if (minNvisits0 <=? 1)%Z then 2%Z else minNvisits0;
     dTmin := dTmin0;
     dTmax := dTmax0;
     RR_badval := badval |}.

Definition RapidRevisitMetric_run (m : RapidRevisitMetric) : M number :=
  dataSlice <- read_slice ;;
  let dtimes := np_diff (np_sort (map expMJD dataSlice)) in
  let good := np_where (fun d => Qle_bool (dTmin m) d && Qle_bool d (dTmax m)) dtimes in
  if (Z.of_nat (length good) <? minNvisits m)%Z then ret (Num (RR_badval m))
  else
    let dtimes := np_sort (take_at 0 dtimes good) in
    lo <- lift (np_min dtimes) ;;
    let width := dTmax m - dTmin m in
    if Qeq_bool width 0 then ret NaN
    else
      let dtimes := map (fun d => (d - lo) / width) dtimes in
      let uniform_dtimes := cum_fraction (length dtimes) in
      d1 <- lift (py_index dtimes 1) ;;
      dmax <- lift (np_max (map Qabs (map2 (fun c d => c - d - d1) uniform_dtimes dtimes))) ;;
      ret (Num dmax).

(** ** NRevisitsMetric *)

Record NRevisitsMetric : Type := {
  dT : Q;
  normed : bool;
  NR_badval : Q
}.

(** [__init__]: [dT] is given in minutes and stored in days. *)
Definition NRevisitsMetric_init (dT_minutes : Q) (normed0 : bool) (badval : Q)
  : NRevisitsMetric :=
  {| dT := dT_minutes / 60 / 24;
     normed := normed0;
     NR_badval := badval |}.

Definition NRevisitsMetric_run (m : NRevisitsMetric) : M number :=
  dataSlice <- read_slice ;;
  let col := map expMJD dataSlice in
  let dtimes := np_diff (np_sort col) in
  let nFastRevisits := length (np_where (fun d => Qle_bool d (dT m)) dtimes) in
  if normed m
  then
    if (length col =? 0)%nat then raise ZeroDivisionError
    else ret (Num (Qnat nFastRevisits / Qnat (length col)))
  else ret (Num (Qnat nFastRevisits)).

(** ** The gap metrics *)

(** The three gap metrics share their configuration: a reducing function
    (default [np.median]) and the bad value. *)
Record GapsMetric : Type := {
  reduceFunc : list Q -> result number;
  G_badval : Q
}.

Definition median_reducer (l : list Q) : result number := Ok (np_median l).

Definition GapsMetric_default (badval : Q) : GapsMetric :=
  {| reduceFunc := median_reducer; G_badval := badval |}.

Definition IntraNightGapsMetric_run (m : GapsMetric) : M number :=
  sort_in_place ;;;
  dataSlice <- read_slice ;;
  let dt := np_diff (map expMJD dataSlice) in
  let dn := np_diffZ (map night dataSlice) in
  let good := np_where (fun d => (d =? 0)%Z) dn in
  if (length good =? 0)%nat then ret (Num (G_badval m))
  else
    r <- lift (reduceFunc m (take_at 0 dt good)) ;;
    ret (number_mul r 24).

Definition InterNightGapsMetric_run (m : GapsMetric) : M number :=
  sort_in_place ;;;
  dataSlice <- read_slice ;;
  let nights := map night dataSlice in
  let times := map expMJD dataSlice in
  let unights := np_uniqueZ nights in
  if (length unights <? 2)%nat then ret (Num (G_badval m))
  else
    let firstOfNight := map (fun u => Z.of_nat (searchsortedZ_left nights u)) unights in
    let lastOfNight := map (fun u => (Z.of_nat (searchsortedZ_right nights u) - 1)%Z) unights in
    a <- lift (py_take times (tl firstOfNight)) ;;
    b <- lift (py_take times (removelast lastOfNight)) ;;
    let diff := map2 Qminus a b in
    r <- lift (reduceFunc m diff) ;;
    ret r.

Definition AveGapMetric_run (m : GapsMetric) : M number :=
  sort_in_place ;;;
  dataSlice <- read_slice ;;
  let diff := np_diff (map expMJD dataSlice) in
  r <- lift (reduceFunc m diff) ;;
  ret (number_mul r 24).

(** ** TemplateExistsMetric *)

Definition TemplateExistsMetric_run : M number :=
  sort_in_place ;;;
  dataSlice <- read_slice ;;
  let col := map seeing dataSlice in
  let seeing_mins := minimum_accumulate col in
  let seeing_diff := map2 Qminus col (np_roll1 0 seeing_mins) in
  let good := np_where (fun d => Qle_bool 0 d) (tl seeing_diff) in
  if (length col =? 0)%nat then raise ZeroDivisionError
  else ret (Num (Qnat (length good) / Qnat (length col))).

(** ** SupernovaMetric *)

Record SupernovaMetric : Type := {
  redshift : Q;
  Tmin : Q;
  Tmax : Q;
  Nbetween : Z;
  Nfilt : Z;
  Tless : Q;
  Nless : Z;
  Tmore : Q;
  Nmore : Z;
  peakGap : Q;
  snrCut : Q;
  singleDepthLimit : Q;
  resolution : Q;
  uniqueBlocks : bool;
  SN_badval : Q;
  filterNames : list string
}.

(** [__init__]: the filters kept are those whose rest-frame effective
    wavelength lies strictly between 300 and 900 nm. *)
Definition SupernovaMetric_init
  (redshift0 Tmin0 Tmax0 : Q) (Nbetween0 Nfilt0 : Z) (Tless0 : Q) (Nless0 : Z)
  (Tmore0 : Q) (Nmore0 : Z) (peakGap0 snrCut0 singleDepthLimit0 resolution0 : Q)
  (uniqueBlocks0 : bool) (badval : Q) : SupernovaMetric :=
  let names := ["u"; "g"; "r"; "i"; "z"; "y"]%string in
  let filterWave := map (fun w => w / (1 + redshift0)) [375; 476; 621; 754; 870; 980] in
  {| redshift := redshift0;
     Tmin := Tmin0;
     Tmax := Tmax0;
     Nbetween := Nbetween0;
     Nfilt := Nfilt0;
     Tless := Tless0;
     Nless := Nless0;
     Tmore := Tmore0;
     Nmore := Nmore0;
     peakGap := peakGap0;
     snrCut := snrCut0;
     singleDepthLimit := singleDepthLimit0;
     resolution := resolution0;
     uniqueBlocks := uniqueBlocks0;
     SN_badval := badval;
     filterNames :=
       take_at ""%string names (np_where (fun w => Qltb 300 w && Qltb w 900) filterWave) |}.

(** The keyword defaults of [__init__]. *)
Definition SupernovaMetric_default (uniqueBlocks0 : bool) : SupernovaMetric :=
  SupernovaMetric_init 0 (-20) 60 7 2 (-5) 1 30 1 15 10 23 5 uniqueBlocks0 (-666).

(** What [run] hands back: the 3-tuple of the early return, or the dict. *)
Inductive sn_output : Type :=
| Tuple3 (a b c : Q)
| Dict (result : Z) (maxGap : list Q) (Nobs : list Z).

(** The variables the candidate loop updates.  [accepted] is a ghost
    variable: the index range [(left[i], right[i])] of each sequence counted
    in [result], in the order of acceptance. *)
Record sn_state : Type := {
  right_side : Z;
  result_count : Z;
  maxGap_acc : list Q;
  Nobs_acc : list Z;
  accepted : list (nat * nat)
}.

Definition sn_init : sn_state :=
  {| right_side := (-1)%Z; result_count := 0%Z; maxGap_acc := []; Nobs_acc := [];
     accepted := [] |}.

(** The inner loop [for f in ufilters]. *)
Fixpoint count_bright (limit : Q) (fnear : list string) (m5near : list Q)
  (ufilters : list string) (filtersBrightEnough : Z) : result Z :=
  match ufilters with
  | [] => Ok filtersBrightEnough
  | f :: ufilters' =>
      let? deepest := np_max (take_at 0 m5near (np_where (String.eqb f) fnear)) in
      count_bright limit fnear m5near ufilters'
        (if Qltb limit deepest then (filtersBrightEnough + 1)%Z else filtersBrightEnough)
  end.

Section SupernovaLoop.
Variable m : SupernovaMetric.
Variable dataSlice : list visit.
Variables time finetime : list Q.
Variables left right : list nat.

(** One iteration of [for i, index in enumerate(ind)]. *)
Definition sn_step (st : sn_state) (i index : nat) : result sn_state :=
  if (Z.of_nat i <=? right_side st)%Z then Ok st
  else
    let l := nth i left 0%nat in
    let r := nth i right 0%nat in
    let visits := py_slice dataSlice l r in
    let t := map (fun x => x - nth index finetime 0 + Tmin m) (py_slice time l r) in
    if (Z.of_nat (length (np_where (fun x => Qltb x (Tless m)) t)) >? Nless m)%Z then
      if (Z.of_nat (length (np_where (fun x => Qltb (Tmore m) x) t)) >? Nmore m)%Z then
        if (Z.of_nat (length t) >? Nbetween m)%Z then
          let ufilters := np_unique_str (map filter visits) in
          if (Z.of_nat (length ufilters) >=? Nfilt m)%Z then
            let nearPeak := np_where (fun x => Qltb (Tless m) x && Qltb x (Tmore m)) t in
            let fnear := take_at ""%string (map filter visits) nearPeak in
            let m5near := take_at 0 (map fiveSigmaDepth visits) nearPeak in
            let ufilters := np_unique_str fnear in
            let? filtersBrightEnough :=
              count_bright (singleDepthLimit m) fnear m5near ufilters 0 in
            if (filtersBrightEnough >=? Nfilt m)%Z then
              let tnear := take_at 0 t nearPeak in
              let? gaps_max :=
                (if (2 <=? length nearPeak)%nat
                 then np_max (map2 Qminus (tl tnear) (tl (np_roll1 0 tnear)))
                 else Ok (peakGap m + 1000000)) in
              if Qltb gaps_max (peakGap m) then
                Ok {| right_side :=
                        if uniqueBlocks m then Z.of_nat r else right_side st;
                      result_count := (result_count st + 1)%Z;
                      maxGap_acc := maxGap_acc st ++ [gaps_max];
                      Nobs_acc := Nobs_acc st ++ [Z.of_nat (length t)];
                      accepted := accepted st ++ [(l, r)] |}
              else Ok st
            else Ok st
          else Ok st
        else Ok st
      else Ok st
    else Ok st.

Fixpoint sn_loop (st : sn_state) (i : nat) (ind : list nat) : result sn_state :=
  match ind with
  | [] => Ok st
  | index :: ind' =>
      let? st' := sn_step st i index in
      sn_loop st' (S i) ind'
  end.
End SupernovaLoop.

(** Everything [run] computes after the early return, on the filtered copy
    of the slice; the final loop state is returned whole.  A redshift of -1
    makes the rest-frame times non-finite and a resolution of 0 makes the
    grid unbounded: in both cases [np.arange] raises (modelled as
    [ValueError]; the class of the exception varies with the numpy
    version). *)
Definition sn_scan (m : SupernovaMetric) (dataSlice : list visit) : result sn_state :=
  let dataSlice := sort_by_time dataSlice in
  let mjd := map expMJD dataSlice in
  let? lo := np_min mjd in
  if Qeq_bool (1 + redshift m) 0 then Raise ValueError
  else
    let time := map (fun x => (x - lo) / (1 + redshift m)) mjd in
    let? hi := np_max time in
    if Qeq_bool (resolution m) 0 then Raise ValueError
    else
      let finetime := np_arange (inject_Z (Qceiling hi)) (resolution m) in
      let ind := seq 0 (length finetime) in
      let right :=
        map (fun ft => searchsorted_right time (ft + Tmax m - Tmin m)) finetime in
      let left := map (searchsorted_left time) finetime in
      let good :=
        np_where (fun rl => (Z.of_nat (fst rl) - Z.of_nat (snd rl) >? Nbetween m)%Z)
                 (combine right left) in
      let ind := take_at 0%nat ind good in
      let right := take_at 0%nat right good in
      let left := take_at 0%nat left good in
      sn_loop m dataSlice time finetime left right sn_init 0 ind.

Definition goodFilters (m : SupernovaMetric) (v : visit) : bool :=
  existsb (String.eqb (filter v)) (filterNames m).

(** [run]: the boolean-mask indexing [dataSlice[goodFilters]] builds a new
    array, so the later [sort] does not touch the caller's. *)
Definition SupernovaMetric_run (m : SupernovaMetric) : M sn_output :=
  dataSlice <- read_slice ;;
  let dataSlice := List.filter (goodFilters m) dataSlice in
  if (length dataSlice =? 0)%nat
  then ret (Tuple3 (SN_badval m) (SN_badval m) (SN_badval m))
  else
    st <- lift (sn_scan m dataSlice) ;;
    ret (Dict (result_count st) (maxGap_acc st) (Nobs_acc st)).

(** The index ranges of the sequences [run] counts (ghost). *)
Definition SupernovaMetric_accepted (m : SupernovaMetric) (s : list visit)
  : result (list (nat * nat)) :=
  let? st := sn_scan m (List.filter (goodFilters m) s) in Ok (accepted st).

(** The reducers index their argument by key. *)
Definition reduceMedianMaxGap (m : SupernovaMetric) (data : sn_output) : result number :=
  match data with
  | Dict _ maxGap _ =>
      let result := np_median maxGap in
      Ok (if np_isnan result then Num (SN_badval m) else result)
  | Tuple3 _ _ _ => Raise TypeError
  end.

Definition reduceNsequences (m : SupernovaMetric) (data : sn_output) : result number :=
  match data with
  | Dict result _ _ => Ok (Num (inject_Z result))
  | Tuple3 _ _ _ => Raise TypeError
  end.

Definition reduceMedianNobs (m : SupernovaMetric) (data : sn_output) : result number :=
  match data with
  | Dict _ _ Nobs =>
      let result := np_median (map inject_Z Nobs) in
      Ok (if np_isnan result then Num (SN_badval m) else result)
  | Tuple3 _ _ _ => Raise TypeError
  end.

Definition sn_visit (t : Z) (f : string) : visit :=
  {| expMJD := inject_Z t; night := t; filter := f; fiveSigmaDepth := 24; seeing := 1 |}.

(** A slice of fourteen visits, one every ten days, alternating between
    the g and r filters, each reaching depth 24. *)
Definition sn_slice : list visit :=
  map (fun k => sn_visit (10 * Z.of_nat k) (if Nat.even k then "g" else "r")%string) (seq 0 14).

(** ** AstroPrecMetric *)

Module AstroPrec.
Import Reals Lra.
Local Open Scope R_scope.

(** A float64 result over the reals. *)
Inductive rnumber : Type :=
| RNum (x : R)
| RNaN.

Definition rnumber_mul (x : rnumber) (c : R) : rnumber :=
  match x with
  | RNum r => RNum (r * c)
  | RNaN => RNaN
  end.

(** [a.mean()]: not-a-number on an empty array. *)
Definition np_mean (l : list R) : rnumber :=
  match l with
  | [] => RNaN
  | _ => RNum (fold_right Rplus 0 l / INR (length l))
  end.

Definition m52snr (m m5 : R) : R :=
  let snr := 5 * Rpower 10 (-0.4 * (m - m5)) in
  snr.

Record AstroPrecMetric : Type := {
  mag : R;
  atm_limit : R
}.

Definition AstroPrecMetric_run (m : AstroPrecMetric) : M rnumber :=
  dataSlice <- read_slice ;;
  let result :=
    map (fun v => Q2R (seeing v) / m52snr (mag m) (Q2R (fiveSigmaDepth v))) dataSlice in
  let result := map (fun x => sqrt (x ^ 2 + atm_limit m ^ 2)) result in
  let result := rnumber_mul (np_mean result) 1e3 in
  ret result.

(** The precision of one visit, in milliarcseconds. *)
Definition precision_mas (m : AstroPrecMetric) (v : visit) : R :=
  1000 * sqrt ((Q2R (seeing v)
                / (5 * Rpower 10 (-0.4 * (mag m - Q2R (fiveSigmaDepth v))))) ^ 2
               + atm_limit m ^ 2).

Definition total (l : list R) : R := fold_right Rplus 0 l.

Definition mean (l : list R) : R := total l / INR (length l).

Definition astro_default : AstroPrecMetric := {| mag := 20; atm_limit := 0.01 |}.

Definition astro_visit (see depth : Q) : visit :=
  {| expMJD := 0; night := 0; filter := "r"; fiveSigmaDepth := depth; seeing := see |}.
End AstroPrec.

(** ** AstroPrecMetric in binary64

    [AstroPrec] reads [run] over the real numbers.  The program computes in
    IEEE 754 binary64; this module reads the same three lines of [run] with
    every operation rounded as numpy rounds it, so that the last digits of a
    result can be told.  [run] does not touch the caller's array, and only
    the two columns it reads are kept. *)

Module AstroPrec64.
Import PrimFloat.
#[local] Set Warnings "-inexact-float".
Local Open Scope float_scope.

Record visit64 : Type := {
  seeing : float;
  fiveSigmaDepth : float
}.

Record AstroPrecMetric : Type := {
  mag : float;
  atm_limit : float
}.

(** [x ** y] goes to the C library's [pow], whose rounding is not fixed.
    Two values are: anything to the power zero is 1, and zero to the power
    2 is 0.  Every other power is left out of the model. *)
Definition float_pow (x y : float) : option float :=
  if is_zero y then Some 1
  else if is_zero x && (y =? 2) then Some 0
  else None.

Definition m52snr (m m5 : float) : option float :=
  match float_pow 10 (- 0.4 * (m - m5)) with
  | Some p => let snr := 5 * p in Some snr
  | None => None
  end.

(** [np.add.reduce] on an array of at most eight elements, in the two
    orders numpy has used: the accumulator runs through the array from its
    first element; or it starts as the first element, and the sum of the
    rest, accumulated from zero, is added to it. *)
Inductive summation : Type :=
| InOrder
| FirstPlusRest.

Definition add_reduce (o : summation) (a : list float) : float :=
  match a with
  | [] => 0
  | x :: rest =>
      match o with
      | InOrder => fold_left add rest x
      | FirstPlusRest => x + fold_left add rest 0
      end
  end.

(** The float64 of a count (exact below 2^53). *)
Fixpoint float_of_nat (n : nat) : float :=
  match n with
  | O => 0
  | S k => float_of_nat k + 1
  end.

(** [a.mean()]: the sum divided by the count; 0/0 on an empty array.  Longer
    arrays, which numpy sums in blocks, are left out of the model. *)
Definition np_mean (o : summation) (a : list float) : option float :=
  if (8 <? length a)%nat then None
  else Some (add_reduce o a / float_of_nat (length a)).

Fixpoint all_some {A : Type} (l : list (option A)) : option (list A) :=
  match l with
  | [] => Some []
  | Some x :: l' => option_map (cons x) (all_some l')
  | None :: _ => None
  end.

(** numpy computes [result**2] as [result * result] and [(...)**0.5] as a
    square root; [atm_limit**2] is a power of Python floats. *)
Definition AstroPrecMetric_run (o : summation) (m : AstroPrecMetric)
    (dataSlice : list visit64) : option float :=
  match all_some (map (fun v => option_map (fun snr => seeing v / snr)
                                  (m52snr (mag m) (fiveSigmaDepth v)))
                      dataSlice),
        float_pow (atm_limit m) 2 with
  | Some result, Some atm2 =>
      let result := map (fun x => sqrt (x * x + atm2)) result in
      option_map (fun mean => mean * 1e3) (np_mean o result)
  | _, _ => None
  end.

(** A metric for magnitude 20 without atmospheric floor, and a visit of
    depth 20: its signal to noise is 5. *)
Definition no_floor : AstroPrecMetric := {| mag := 20; atm_limit := 0 |}.

Definition visit_seeing (see : float) : visit64 :=
  {| seeing := see; fiveSigmaDepth := 20 |}.
End AstroPrec64.

(** ** The family of metrics *)

Inductive metric : Type :=
| Supernova (m : SupernovaMetric)
| TemplateExists
| Uniformity (m : UniformityMetric)
| RapidRevisit (m : RapidRevisitMetric)
| NRevisits (m : NRevisitsMetric)
| IntraNightGaps (m : GapsMetric)
| InterNightGaps (m : GapsMetric)
| AveGap (m : GapsMetric)
| AstroPrecision (m : AstroPrec.AstroPrecMetric).

(** The caller's slice once [run] has returned or raised. *)
Definition slice_after_run (mt : metric) (s : list visit) : list visit :=
  match mt with
  | Supernova m => slice_after (SupernovaMetric_run m) s
  | TemplateExists => slice_after TemplateExistsMetric_run s
  | Uniformity m => slice_after (UniformityMetric_run m) s
  | RapidRevisit m => slice_after (RapidRevisitMetric_run m) s
  | NRevisits m => slice_after (NRevisitsMetric_run m) s
  | IntraNightGaps m => slice_after (IntraNightGapsMetric_run m) s
  | InterNightGaps m => slice_after (InterNightGapsMetric_run m) s
  | AveGap m => slice_after (AveGapMetric_run m) s
  | AstroPrecision m => slice_after (AstroPrec.AstroPrecMetric_run m) s
  end.

(** The metrics whose [run] begins with [dataSlice.sort(order=...)] on the
    array it was handed. *)
Definition sorts_in_place (mt : metric) : bool :=
  match mt with
  | TemplateExists | IntraNightGaps _ | InterNightGaps _ | AveGap _ => true
  | _ => false
  end.

(** ** Notions the statements use, and concrete slices *)

(** The deviation at the [i]-th sorted value ([i] counted from 1): the
    empirical cumulative fraction [i/N], minus the [i]-th value, minus the
    second-smallest value. *)
Definition ks_deviation (d : list Q) (i : nat) : Q :=
  Qabs (Qnat i / Qnat (length d) - nth (i - 1) d 0 - nth 1 d 0).

(** [D] is the largest deviation over the indices 1..N of [d]. *)
Definition max_deviation (d : list Q) (D : Q) : Prop :=
  (exists i, (1 <= i <= length d)%nat /\ D = ks_deviation d i) /\
  (forall i, (1 <= i <= length d)%nat -> ks_deviation d i <= D).

(** [lo] is the smallest element of [l]. *)
Definition minimum_of (l : list Q) (lo : Q) : Prop :=
  In lo l /\ forall t, In t l -> lo <= t.





Definition visit_at (t : Q) : visit :=
  {| expMJD := t; night := Qfloor t; filter := "r"; fiveSigmaDepth := 24; seeing := 1 |}.

(** The number of distinct night values in a slice. *)
Definition distinct_nights (s : list visit) : nat :=
  length (nodup Z.eq_dec (map night s)).

(** Two visits in the y filter, whose rest-frame wavelength at redshift 0
    is 980 nm. *)
Definition y_slice : list visit :=
  [ {| expMJD := 0; night := 0; filter := "y"; fiveSigmaDepth := 24; seeing := 1 |};
    {| expMJD := 10; night := 10; filter := "y"; fiveSigmaDepth := 24; seeing := 1 |} ].

(** A reducer applied to whatever [run] returned. *)
Definition reduced (reducer : SupernovaMetric -> sn_output -> result number)
  (m : SupernovaMetric) (s : list visit) : result number :=
  let? data := returned (SupernovaMetric_run m) s in reducer m data.

(** A computation that leaves the caller's array as it found it. *)
Definition preserves_slice {A : Type} (c : M A) : Prop :=
  forall s, slice_after c s = s.

(** Two visits handed over in reverse time order. *)
Definition reversed_pair : list visit := [visit_at 2; visit_at 1].

(** The slice is in strictly increasing time order. *)
Definition time_ordered (s : list visit) : Prop :=
  StronglySorted (fun a b => expMJD a < expMJD b) s.

Definition three_visits : list visit := map visit_at [3; 0; 1].
Definition close_visits : list visit := map visit_at [0; 0.5; 1.5].
Definition far_visits : list visit := map visit_at [0; 5].
Definition one_night : list visit := map visit_at [1.5; 1.25; 1].

Definition uniformity_default : UniformityMetric :=
  {| surveyLength := 10; U_badval := -666 |}.

(** ** Notions of the further properties *)

(** Visits observed at the same time are the same record; in particular,
    the slice may hold visits at pairwise different times. *)
Definition time_determines (s : list visit) : Prop :=
  forall a b, In a s -> In b s -> expMJD a == expMJD b -> a = b.

(** What the candidate loop keeps true of its variables: the count is the
    size of both arrays, every recorded gap is below [peakGap], every
    recorded number of observations is above [Nbetween] and at most
    [nvisits]. *)
Definition sn_invariant (m : SupernovaMetric) (nvisits : nat) (st : sn_state) : Prop :=
  result_count st = Z.of_nat (length (maxGap_acc st)) /\
  length (Nobs_acc st) = length (maxGap_acc st) /\
  length (accepted st) = length (maxGap_acc st) /\
  Forall (fun g => g < peakGap m) (maxGap_acc st) /\
  Forall (fun n => (Nbetween m < n <= Z.of_nat nvisits)%Z) (Nobs_acc st).

(** The same metric with another value of the [uniqueBlocks] flag. *)
Definition with_uniqueBlocks (m : SupernovaMetric) (b : bool) : SupernovaMetric :=
  {| redshift := redshift m;
     Tmin := Tmin m;
     Tmax := Tmax m;
     Nbetween := Nbetween m;
     Nfilt := Nfilt m;
     Tless := Tless m;
     Nless := Nless m;
     Tmore := Tmore m;
     Nmore := Nmore m;
     peakGap := peakGap m;
     snrCut := snrCut m;
     singleDepthLimit := singleDepthLimit m;
     resolution := resolution m;
     uniqueBlocks := b;
     SN_badval := SN_badval m;
     filterNames := filterNames m |}.


(** Three visits evenly spaced over a survey of ten years. *)
Definition even_visits : list visit :=
  map (fun k => visit_at (0 + Qnat k * 1826.25)) (seq 0 3).

Definition two_filter_visits : list visit := [sn_visit 0 "g"; sn_visit 10 "r"].

(** ** bin/sciencePerformance.py: the pure steps of [makeBundleList] *)

(** [''.join([a for a in lonCol if a in latCol])] *)
Definition commonname (lonCol latCol : string) : string :=
  string_of_list_ascii
    (List.filter (fun a => existsb (Ascii.eqb a) (list_ascii_of_string latCol))
                 (list_ascii_of_string lonCol)).

Definition slicermetadata (lonCol latCol : string) : string :=
  if String.eqb (commonname lonCol latCol) "field"
  then " (non-dithered)"%string
  else (" (" ++ commonname lonCol latCol ++ ")")%string.





(** [int(np.floor(nvisitsRange[prop][f][i] * scale))] with
    [scale = runLength / 10.0] *)
Definition scale_nvisitsRange (runLength : Q) (x : Z) : Z :=
  Qfloor (inject_Z x * (runLength / 10)).

(** * Properties *)

(** ** Sorting *)

Section SortingFacts.
Variable A : Type.
Variable leb : A -> A -> bool.

Lemma insert_sorted_perm (x : A) (l : list A) :
  Permutation (insert_sorted leb x l) (x :: l).
Proof.
  induction l as [|y l IH]; simpl.
  - apply Permutation_refl.
  - destruct (leb x y).
    + apply Permutation_refl.
    + apply perm_trans with (y :: x :: l).
      * apply perm_skip, IH.
      * apply perm_swap.
Qed.

Lemma sort_perm (l : list A) : Permutation (sort leb l) l.
Proof.
  induction l as [|x l IH]; simpl.
  - apply perm_nil.
  - apply perm_trans with (x :: sort leb l).
    + apply insert_sorted_perm.
    + apply perm_skip, IH.
Qed.

Lemma sort_length (l : list A) : length (sort leb l) = length l.
Proof. apply Permutation_length, sort_perm. Qed.

Lemma sort_in (l : list A) (x : A) : In x (sort leb l) <-> In x l.
Proof.
  split; apply Permutation_in.
  - apply sort_perm.
  - apply Permutation_sym, sort_perm.
Qed.

Hypothesis leb_total : forall a b, leb a b = true \/ leb b a = true.
Hypothesis leb_trans : forall a b c, leb a b = true -> leb b c = true -> leb a c = true.

Let le (a b : A) : Prop := leb a b = true.

Lemma insert_sorted_sorted (x : A) (l : list A) :
  StronglySorted le l -> StronglySorted le (insert_sorted leb x l).
Proof.
  induction 1 as [|y l Hs IH Hall]; simpl.
  - constructor; constructor.
  - destruct (leb x y) eqn:Hxy.
    + constructor.
      * constructor; assumption.
      * constructor; [exact Hxy|].
        eapply Forall_impl; [|exact Hall].
        intros z Hz. eapply leb_trans; eassumption.
    + constructor; [exact IH|].
      assert (Hyx : le y x).
      { destruct (leb_total x y) as [H|H]; [congruence|exact H]. }
      eapply Permutation_Forall.
      * apply Permutation_sym, insert_sorted_perm.
      * constructor; assumption.
Qed.

Lemma sort_sorted (l : list A) : StronglySorted le (sort leb l).
Proof.
  induction l as [|x l IH]; simpl.
  - constructor.
  - apply insert_sorted_sorted, IH.
Qed.

(** An array that is already in order is left as it is. *)
Lemma sort_sorted_id (l : list A) : StronglySorted le l -> sort leb l = l.
Proof.
  induction 1 as [|x l Hs IH Hall]; simpl.
  - reflexivity.
  - rewrite IH. destruct l as [|y l]; simpl.
    + reflexivity.
    + inversion Hall as [|? ? Hxy _]; subst. unfold le in Hxy. rewrite Hxy. reflexivity.
Qed.
End SortingFacts.

Lemma StronglySorted_weaken {A : Type} (R1 R2 : A -> A -> Prop) (l : list A) :
  (forall a b, R1 a b -> R2 a b) -> StronglySorted R1 l -> StronglySorted R2 l.
Proof.
  intros Himp. induction 1 as [|x l Hs IH Hall]; constructor.
  - exact IH.
  - eapply Forall_impl; [|exact Hall]. intros; apply Himp; assumption.
Qed.

Lemma Qle_bool_total (a b : Q) : Qle_bool a b = true \/ Qle_bool b a = true.
Proof.
  destruct (Qlt_le_dec a b) as [H|H].
  - left. apply Qle_bool_iff, Qlt_le_weak, H.
  - right. apply Qle_bool_iff, H.
Qed.

Lemma Qle_bool_trans (a b c : Q) :
  Qle_bool a b = true -> Qle_bool b c = true -> Qle_bool a c = true.
Proof.
  rewrite !Qle_bool_iff. apply Qle_trans.
Qed.

Lemma np_sort_perm (l : list Q) : Permutation (np_sort l) l.
Proof. apply sort_perm. Qed.

Lemma np_sort_sorted (l : list Q) : StronglySorted Qle (np_sort l).
Proof.
  apply StronglySorted_weaken with (R1 := fun a b => Qle_bool a b = true).
  - intros a b. apply Qle_bool_iff.
  - apply sort_sorted.
    + apply Qle_bool_total.
    + apply Qle_bool_trans.
Qed.

Lemma sort_by_time_perm (s : list visit) : Permutation (sort_by_time s) s.
Proof. apply sort_perm. Qed.

Lemma sort_by_time_sorted (s : list visit) :
  StronglySorted (fun a b => expMJD a <= expMJD b) (sort_by_time s).
Proof.
  apply StronglySorted_weaken
    with (R1 := fun a b => Qle_bool (expMJD a) (expMJD b) = true).
  - intros a b. apply Qle_bool_iff.
  - apply sort_sorted.
    + intros a b. apply Qle_bool_total.
    + intros a b c. apply Qle_bool_trans.
Qed.

(** ** Extremes *)

Lemma fold_left_Qmax2_spec (l : list Q) (x : Q) :
  let hi := fold_left Qmax2 l x in
  In hi (x :: l) /\ forall y, In y (x :: l) -> y <= hi.
Proof.
  revert x. induction l as [|z l IH]; intros x; simpl.
  - split; [left; reflexivity|]. intros y [->|[]]. apply Qle_refl.
  - destruct (IH (Qmax2 x z)) as [Hin Hle]. simpl in Hin, Hle.
    assert (Hx : x <= Qmax2 x z /\ z <= Qmax2 x z /\ (Qmax2 x z = x \/ Qmax2 x z = z)).
    { unfold Qmax2. destruct (Qle_bool x z) eqn:E.
      - apply Qle_bool_iff in E. repeat split; [exact E|apply Qle_refl|right; reflexivity].
      - assert (z <= x).
        { destruct (Qle_bool_total x z) as [H|H]; [congruence|apply Qle_bool_iff, H]. }
        repeat split; [apply Qle_refl|assumption|left; reflexivity]. }
    destruct Hx as (Hx1 & Hx2 & Hx3).
    split.
    + destruct Hin as [Hin|Hin].
      * destruct Hx3 as [E|E]; [left|right; left]; rewrite <- Hin; symmetry; exact E.
      * right; right; exact Hin.
    + intros y [->|[->|Hy]].
      * eapply Qle_trans; [exact Hx1|]. apply Hle. left; reflexivity.
      * eapply Qle_trans; [exact Hx2|]. apply Hle. left; reflexivity.
      * apply Hle. right; exact Hy.
Qed.

Lemma fold_left_Qmin2_spec (l : list Q) (x : Q) :
  let lo := fold_left Qmin2 l x in
  In lo (x :: l) /\ forall y, In y (x :: l) -> lo <= y.
Proof.
  revert x. induction l as [|z l IH]; intros x; simpl.
  - split; [left; reflexivity|]. intros y [->|[]]. apply Qle_refl.
  - destruct (IH (Qmin2 x z)) as [Hin Hle]. simpl in Hin, Hle.
    assert (Hx : Qmin2 x z <= x /\ Qmin2 x z <= z /\ (Qmin2 x z = x \/ Qmin2 x z = z)).
    { unfold Qmin2. destruct (Qle_bool x z) eqn:E.
      - apply Qle_bool_iff in E. repeat split; [apply Qle_refl|exact E|left; reflexivity].
      - assert (z <= x).
        { destruct (Qle_bool_total x z) as [H|H]; [congruence|apply Qle_bool_iff, H]. }
        repeat split; [assumption|apply Qle_refl|right; reflexivity]. }
    destruct Hx as (Hx1 & Hx2 & Hx3).
    split.
    + destruct Hin as [Hin|Hin].
      * destruct Hx3 as [E|E]; [left|right; left]; rewrite <- Hin; symmetry; exact E.
      * right; right; exact Hin.
    + intros y [->|[->|Hy]].
      * eapply Qle_trans; [|exact Hx1]. apply Hle. left; reflexivity.
      * eapply Qle_trans; [|exact Hx2]. apply Hle. left; reflexivity.
      * apply Hle. right; exact Hy.
Qed.

Lemma np_max_spec (l : list Q) (hi : Q) :
  np_max l = Ok hi -> In hi l /\ forall y, In y l -> y <= hi.
Proof.
  destruct l as [|x l]; simpl; [discriminate|].
  intros H. injection H as <-. apply fold_left_Qmax2_spec.
Qed.

Lemma np_min_spec (l : list Q) (lo : Q) :
  np_min l = Ok lo -> In lo l /\ forall y, In y l -> lo <= y.
Proof.
  destruct l as [|x l]; simpl; [discriminate|].
  intros H. injection H as <-. apply fold_left_Qmin2_spec.
Qed.

Lemma np_max_ok (l : list Q) : l <> [] -> exists hi, np_max l = Ok hi.
Proof. destruct l; [congruence|]. intros _. eexists; reflexivity. Qed.

Lemma np_min_ok (l : list Q) : l <> [] -> exists lo, np_min l = Ok lo.
Proof. destruct l; [congruence|]. intros _. eexists; reflexivity. Qed.

(** ** Indexing *)

Lemma py_index_nth {A : Type} (a : list A) (i : nat) (d : A) :
  (i < length a)%nat -> py_index a (Z.of_nat i) = Ok (nth i a d).
Proof.
  intros Hi. unfold py_index.
  assert (H0 : (Z.of_nat i <? 0)%Z = false) by (apply Z.ltb_ge; lia).
  rewrite H0.
  assert (H1 : (Z.of_nat (length a) <=? Z.of_nat i)%Z = false) by (apply Z.leb_gt; lia).
  rewrite H0, H1. simpl. rewrite Nat2Z.id.
  destruct (nth_error a i) as [x|] eqn:E.
  - f_equal. symmetry. apply nth_error_nth. exact E.
  - apply nth_error_None in E. lia.
Qed.

Lemma map2_length {A B C : Type} (f : A -> B -> C) (l1 : list A) (l2 : list B) :
  length l1 = length l2 -> length (map2 f l1 l2) = length l2.
Proof.
  intros H. unfold map2. rewrite length_map, length_combine, H. apply Nat.min_id.
Qed.

Lemma map2_seq {A B C : Type} (f : A -> B -> C) (g : nat -> A) (l : list B) (d : B) (k : nat) :
  map2 f (map g (seq k (length l))) l
  = map (fun i => f (g i) (nth (i - k) l d)) (seq k (length l)).
Proof.
  revert k. induction l as [|x l IH]; intros k; simpl.
  - reflexivity.
  - unfold map2 in *. simpl. rewrite Nat.sub_diag. f_equal.
    rewrite IH. apply map_ext_in. intros i Hi. apply in_seq in Hi.
    replace (i - k)%nat with (S (i - S k)) by lia. reflexivity.
Qed.

(** ** UniformityMetric *)

(** The statistic both [UniformityMetric.run] and [RapidRevisitMetric.run]
    compute from an array of at least two sorted values. *)
Lemma ks_statistic (d : list Q) :
  (2 <= length d)%nat ->
  exists D,
    (let? d1 := py_index d 1 in
     let? D_max := np_max (map Qabs (map2 (fun c x => c - x - d1) (cum_fraction (length d)) d)) in
     Ok (Num D_max)) = Ok (Num D)
    /\ max_deviation d D.
Proof.
  intros Hlen.
  change (py_index d 1) with (py_index d (Z.of_nat 1)).
  rewrite (py_index_nth d (i := 1) 0) by lia. simpl rbind.
  unfold cum_fraction. rewrite (map2_seq _ _ d 0 1), map_map.
  set (devs := map _ (seq 1 (length d))).
  assert (Hdevs : devs = map (ks_deviation d) (seq 1 (length d))).
  { subst devs. apply map_ext. intros i. unfold ks_deviation, Qnat. reflexivity. }
  destruct (np_max_ok (l := devs)) as [D HD].
  { rewrite Hdevs. destruct d as [|? [|? ?]]; simpl in *; try lia; discriminate. }
  exists D. rewrite HD. simpl. split; [reflexivity|].
  apply np_max_spec in HD. rewrite Hdevs in HD. destruct HD as [Hin Hle].
  split.
  - apply in_map_iff in Hin. destruct Hin as (i & Hi & Hseq).
    apply in_seq in Hseq. exists i. split; [lia|congruence].
  - intros i Hi. apply Hle, in_map. apply in_seq. lia.
Qed.

(** C2.  [UniformityMetric.run] on a slice of one observation returns 1,
    whatever the bad value is.  On a slice of [N >= 2] observations (and a
    survey length other than zero) it returns the maximum, over the sorted
    indices [i = 1..N], of [|i/N - d_i - d_2|], where [d] is the sorted array
    of the rescaled times [(time - min time) / (surveyLength * 365.25)] and
    [d_2] its second-smallest element. *)
Theorem UniformityMetric_run_spec (m : UniformityMetric) :
  (forall v, returned (UniformityMetric_run m) [v] = Ok (Num 1)) /\
  (forall s,
      (2 <= length s)%nat ->
      ~ surveyLength m * 365.25 == 0 ->
      exists (lo : Q) (dates : list Q) (D : Q),
        returned (UniformityMetric_run m) s = Ok (Num D) /\
        minimum_of (map expMJD s) lo /\
        Permutation dates
          (map (fun v => (expMJD v - lo) / (surveyLength m * 365.25)) s) /\
        StronglySorted Qle dates /\
        length dates = length s /\
        max_deviation dates D).
Proof.
  split.
  - intros v. reflexivity.
  - intros s Hlen Hscale.
    destruct (np_min_ok (l := map expMJD s)) as [lo Hlo].
    { destruct s; simpl in *; [lia|discriminate]. }
    set (scale := surveyLength m * 365.25) in *.
    set (dates := np_sort (map (fun t => (t - lo) / scale) (map expMJD s))).
    assert (Hdl : length dates = length s).
    { subst dates. unfold np_sort. rewrite sort_length, !length_map. reflexivity. }
    destruct (ks_statistic dates) as (D & HD & Hmax); [lia|].
    exists lo, dates, D.
    split; [|split; [|split; [|split; [|split]]]].
    + unfold returned, UniformityMetric_run, bind, read_slice, lift, ret. simpl.
      rewrite length_map.
      destruct (Nat.eqb_spec (length s) 1) as [E|_]; [lia|].
      rewrite Hlo. simpl.
      destruct (Qeq_bool (surveyLength m * 365.25) 0) eqn:Ez.
      { apply Qeq_bool_iff in Ez. contradiction. }
      fold scale. fold dates.
      destruct (py_index dates 1) as [d1|e] eqn:E1; simpl in HD; [|discriminate].
      simpl.
      destruct (np_max _) as [x|e] eqn:E2; simpl in HD; [|discriminate].
      simpl. exact HD.
    + apply np_min_spec. exact Hlo.
    + subst dates. rewrite map_map. apply np_sort_perm.
    + apply np_sort_sorted.
    + exact Hdl.
    + exact Hmax.
Qed.

(** ** Selecting by position *)

Lemma take_at_where_from {A : Type} (cond : A -> bool) (a : list A) (d : A) (k : nat) :
  map (fun i => nth (i - k) a d)
      (map fst (List.filter (fun p => cond (snd p)) (combine (seq k (length a)) a)))
  = List.filter cond a.
Proof.
  revert k. induction a as [|x a IH]; intros k; simpl.
  - reflexivity.
  - assert (Htail :
      map (fun i => nth (i - k) (x :: a) d)
          (map fst (List.filter (fun p => cond (snd p)) (combine (seq (S k) (length a)) a)))
      = List.filter cond a).
    { rewrite <- (IH (S k)). apply map_ext_in. intros i Hi.
      apply in_map_iff in Hi. destruct Hi as ([j y] & <- & Hj).
      apply filter_In in Hj. destruct Hj as [Hj _].
      apply in_combine_l, in_seq in Hj. simpl.
      replace (j - k)%nat with (S (j - S k)) by lia. reflexivity. }
    destruct (cond x); simpl.
    + rewrite Nat.sub_diag. f_equal. exact Htail.
    + exact Htail.
Qed.

Lemma take_at_where {A : Type} (cond : A -> bool) (a : list A) (d : A) :
  take_at d a (np_where cond a) = List.filter cond a.
Proof.
  unfold take_at, np_where. rewrite <- (take_at_where_from cond a d 0).
  apply map_ext. intros i. rewrite Nat.sub_0_r. reflexivity.
Qed.

Lemma np_where_length {A : Type} (cond : A -> bool) (a : list A) :
  length (np_where cond a) = length (List.filter cond a).
Proof.
  destruct a as [|x a].
  - reflexivity.
  - rewrite <- (take_at_where cond (x :: a) x). unfold take_at.
    rewrite length_map. reflexivity.
Qed.

(** ** RapidRevisitMetric *)

Lemma StronglySorted_map_monotone (f : Q -> Q) (l : list Q) :
  (forall a b, a <= b -> f a <= f b) ->
  StronglySorted Qle l -> StronglySorted Qle (map f l).
Proof.
  intros Hf. induction 1 as [|x l Hs IH Hall]; simpl; constructor.
  - exact IH.
  - apply Forall_map. eapply Forall_impl; [|exact Hall]. intros; apply Hf; assumption.
Qed.

Lemma rescale_monotone (lo w a b : Q) : 0 < w -> a <= b -> (a - lo) / w <= (b - lo) / w.
Proof.
  intros Hw Hab. unfold Qdiv. apply Qmult_le_compat_r.
  - lra.
  - apply Qlt_le_weak, Qinv_lt_0_compat, Hw.
Qed.






(** ** NRevisitsMetric *)


(** ** Distinct values *)

Lemma drop_repeats_in (l : list Z) (x : Z) : In x (drop_repeats l) <-> In x l.
Proof.
  induction l as [|y l IH]; [reflexivity|].
  destruct l as [|z l].
  - reflexivity.
  - change (drop_repeats (y :: z :: l))
      with (if (y =? z)%Z then drop_repeats (z :: l) else y :: drop_repeats (z :: l)).
    destruct (Z.eqb_spec y z) as [->|Hne].
    + rewrite IH. simpl. tauto.
    + simpl In at 1. rewrite IH. simpl. tauto.
Qed.

Lemma drop_repeats_NoDup (l : list Z) :
  StronglySorted Z.le l -> NoDup (drop_repeats l).
Proof.
  induction 1 as [|y l Hs IH Hall].
  - constructor.
  - destruct l as [|z l].
    + simpl. constructor; [intros []|constructor].
    + change (drop_repeats (y :: z :: l))
        with (if (y =? z)%Z then drop_repeats (z :: l) else y :: drop_repeats (z :: l)).
      destruct (Z.eqb_spec y z) as [->|Hne]; [exact IH|].
      constructor; [|exact IH].
      rewrite drop_repeats_in. intros Hin.
      inversion Hs as [|? ? _ Hzl]; subst.
      inversion Hall as [|? ? Hyz _]; subst.
      destruct Hin as [->|Hin]; [congruence|].
      rewrite Forall_forall in Hall, Hzl.
      specialize (Hzl _ Hin). lia.
Qed.

Lemma np_sortZ_sorted (l : list Z) : StronglySorted Z.le (np_sortZ l).
Proof.
  apply StronglySorted_weaken with (R1 := fun a b => Z.leb a b = true).
  - intros a b. apply Z.leb_le.
  - apply sort_sorted.
    + intros a b. rewrite !Z.leb_le. lia.
    + intros a b c. rewrite !Z.leb_le. lia.
Qed.

(** [np.unique] finds as many values as the column has distinct ones, in
    whatever order the column is. *)
Lemma np_uniqueZ_length (l l' : list Z) :
  Permutation l l' ->
  length (np_uniqueZ l) = length (nodup Z.eq_dec l').
Proof.
  intros Hp. apply Permutation_length. apply NoDup_Permutation.
  - apply drop_repeats_NoDup, np_sortZ_sorted.
  - apply NoDup_nodup.
  - intros x. unfold np_uniqueZ, np_sortZ.
    rewrite drop_repeats_in, sort_in, nodup_In.
    split; apply Permutation_in; [exact Hp|apply Permutation_sym, Hp].
Qed.

(** ** InterNightGapsMetric *)

(** C6.  [InterNightGapsMetric.run] returns the bad value on every slice
    with fewer than two distinct night values, whatever the reducing
    function.  On a slice of two observations, at times [t0 < t1] in two
    nights (the later observation in the later night, so that the night
    column is in order once the slice is sorted by time), the default median
    reducer gives [t1 - t0]. *)
Theorem InterNightGapsMetric_run_spec :
  (forall (m : GapsMetric) (s : list visit),
      (distinct_nights s < 2)%nat ->
      returned (InterNightGapsMetric_run m) s = Ok (Num (G_badval m))) /\
  (forall (badval : Q) (a b : visit) (s : list visit),
      expMJD a < expMJD b ->
      (night a < night b)%Z ->
      s = [a; b] \/ s = [b; a] ->
      returned (InterNightGapsMetric_run (GapsMetric_default badval)) s
      = Ok (Num (expMJD b - expMJD a))).
Proof.
  split.
  - intros m s Hfew.
    unfold returned, InterNightGapsMetric_run, bind, sort_in_place, read_slice, ret.
    cbv zeta beta iota.
    rewrite (np_uniqueZ_length (l' := map night s)).
    + fold (distinct_nights s).
      destruct (Nat.ltb_spec (distinct_nights s) 2) as [_|Hge]; [reflexivity|lia].
    + apply Permutation_map, sort_by_time_perm.
  - intros badval a b s Ht Hn Hs.
    assert (Hsorted : sort_by_time s = [a; b]).
    { assert (Hab : Qle_bool (expMJD a) (expMJD b) = true).
      { apply Qle_bool_iff. lra. }
      assert (Hba : Qle_bool (expMJD b) (expMJD a) = false).
      { destruct (Qle_bool (expMJD b) (expMJD a)) eqn:E; [|reflexivity].
        apply Qle_bool_iff in E. lra. }
      destruct Hs as [-> | ->]; unfold sort_by_time; simpl.
      - rewrite Hab. reflexivity.
      - rewrite Hba. reflexivity. }
    unfold returned, InterNightGapsMetric_run, bind, sort_in_place, read_slice, ret, lift.
    cbv zeta beta iota. rewrite Hsorted.
    unfold np_uniqueZ, np_sortZ, searchsortedZ_left, searchsortedZ_right. simpl.
    assert (E1 : (night a <=? night b)%Z = true) by (apply Z.leb_le; lia).
    assert (E2 : (night a =? night b)%Z = false) by (apply Z.eqb_neq; lia).
    assert (E3 : (night a <? night b)%Z = true) by (apply Z.ltb_lt; lia).
    assert (E4 : (night b <=? night a)%Z = false) by (apply Z.leb_gt; lia).
    assert (E5 : (night b <? night a)%Z = false) by (apply Z.ltb_ge; lia).
    rewrite E1. simpl. rewrite E2. simpl.
    repeat first [rewrite Z.ltb_irrefl | rewrite Z.leb_refl | rewrite E1 | rewrite E3
                 | rewrite E4 | rewrite E5].
    simpl. reflexivity.
Qed.

(** ** Insufficient data in AveGapMetric and NRevisitsMetric *)

(** The guard the sibling metric has: one visit gives no same-night pair,
    and [IntraNightGapsMetric.run] answers with the bad value. *)
Lemma IntraNightGapsMetric_run_single (m : GapsMetric) (v : visit) :
  returned (IntraNightGapsMetric_run m) [v] = Ok (Num (G_badval m)).
Proof. reflexivity. Qed.

(** C3.  [AveGapMetric.run] has no guard: with fewer than two visits the
    default median reducer receives an empty array of gaps and the result is
    not-a-number, whatever the bad value.  [NRevisitsMetric.run] with
    [normed] set divides by the number of visits and raises
    [ZeroDivisionError] on an empty slice. *)
Theorem AveGap_NRevisits_insufficient_data (badval : Q) (v : visit) :
  returned (AveGapMetric_run (GapsMetric_default badval)) [v] = Ok NaN /\
  returned (AveGapMetric_run (GapsMetric_default badval)) [] = Ok NaN /\
  returned (NRevisitsMetric_run (NRevisitsMetric_init 30 true badval)) []
  = Raise ZeroDivisionError.
Proof. repeat split. Qed.

(** ** SupernovaMetric: the shape of the result *)

(** C4.  On a slice without any observation in a valid filter, [run]
    returns a 3-tuple and each of the three reducers, indexing it by key,
    raises [TypeError]; none yields the bad value. *)
Theorem SupernovaMetric_reducers_no_valid_filter :
  let m := SupernovaMetric_default false in
  List.filter (goodFilters m) y_slice = [] /\
  returned (SupernovaMetric_run m) y_slice = Ok (Tuple3 (-666) (-666) (-666)) /\
  reduced reduceMedianMaxGap m y_slice = Raise TypeError /\
  reduced reduceNsequences m y_slice = Raise TypeError /\
  reduced reduceMedianNobs m y_slice = Raise TypeError.
Proof. repeat split. Qed.

Lemma where_nonempty {A : Type} (cond : A -> bool) (a : list A) (x : A) :
  In x a -> cond x = true -> np_where cond a <> [].
Proof.
  intros Hin Hc Hnil.
  assert (Hf : In x (List.filter cond a)) by (apply filter_In; split; assumption).
  assert (Hl : length (np_where cond a) = 0%nat) by (rewrite Hnil; reflexivity).
  rewrite np_where_length in Hl.
  destruct (List.filter cond a); [contradiction|discriminate].
Qed.

Lemma count_bright_ok (limit : Q) (fnear : list string) (m5near : list Q)
  (ufilters : list string) (acc : Z) :
  (forall f, In f ufilters -> In f fnear) ->
  exists n, count_bright limit fnear m5near ufilters acc = Ok n.
Proof.
  revert acc. induction ufilters as [|f ufilters IH]; intros acc Hsub; simpl.
  - eexists; reflexivity.
  - destruct (np_max_ok (l := take_at 0 m5near (np_where (String.eqb f) fnear)))
      as [deepest Hd].
    { unfold take_at. intros Hnil. apply map_eq_nil in Hnil. revert Hnil.
      apply where_nonempty with (x := f).
      - apply Hsub. left; reflexivity.
      - apply String.eqb_refl. }
    rewrite Hd. simpl. apply IH. intros g Hg. apply Hsub. right; exact Hg.
Qed.

Lemma np_roll1_length {A : Type} (d : A) (a : list A) :
  length (np_roll1 d a) = length a.
Proof.
  destruct a as [|x a]; [reflexivity|].
  unfold np_roll1. cbn [length]. rewrite removelast_firstn_len, length_firstn.
  simpl. lia.
Qed.

Lemma near_peak_gaps_ok (tnear : list Q) :
  (2 <= length tnear)%nat ->
  exists g, np_max (map2 Qminus (tl tnear) (tl (np_roll1 0 tnear))) = Ok g.
Proof.
  intros Hlen. apply np_max_ok. intros Hnil.
  assert (Hl : length (map2 Qminus (tl tnear) (tl (np_roll1 0 tnear))) = 0%nat)
    by (rewrite Hnil; reflexivity).
  rewrite map2_length in Hl.
  - pose proof (np_roll1_length 0 tnear) as Hr.
    destruct (np_roll1 0 tnear) as [|? ?]; simpl in *; lia.
  - pose proof (np_roll1_length 0 tnear) as Hr.
    destruct (np_roll1 0 tnear) as [|? ?], tnear as [|? ?]; simpl in *; lia.
Qed.

(** No iteration of the candidate loop raises. *)
Lemma sn_step_ok (m : SupernovaMetric) (dataSlice : list visit)
  (time finetime : list Q) (left right : list nat) (st : sn_state) (i index : nat) :
  exists st', sn_step m dataSlice time finetime left right st i index = Ok st'.
Proof.
  unfold sn_step.
  repeat match goal with
         | |- exists st', (if ?c then _ else Ok _) = Ok st' =>
             destruct c; [|eexists; reflexivity]
         | |- exists st', (if ?c then Ok _ else _) = Ok st' =>
             destruct c; [eexists; reflexivity|]
         end.
  cbv zeta.
  match goal with
  | |- context [count_bright ?l ?f ?d ?u ?a] =>
      destruct (@count_bright_ok l f d u a) as [n Hn]
  end.
  { intros f Hf. apply nodup_In in Hf. exact Hf. }
  rewrite Hn. cbn [rbind].
  destruct (n >=? Nfilt m)%Z; [|eexists; reflexivity].
  match goal with
  | |- context [(2 <=? length ?np)%nat] => destruct (Nat.leb_spec 2 (length np)) as [H2|H2]
  end.
  - match goal with
    | |- context [np_max (map2 Qminus (tl ?tn) _)] =>
        destruct (near_peak_gaps_ok tn) as [g Hg]
    end.
    { unfold take_at. rewrite length_map. exact H2. }
    rewrite Hg. cbn [rbind].
    destruct (Qltb g (peakGap m)); eexists; reflexivity.
  - cbn [rbind].
    destruct (Qltb _ (peakGap m)); eexists; reflexivity.
Qed.

Lemma sn_loop_ok (m : SupernovaMetric) (dataSlice : list visit)
  (time finetime : list Q) (left right : list nat) (ind : list nat) :
  forall (st : sn_state) (i : nat),
    exists st', sn_loop m dataSlice time finetime left right st i ind = Ok st'.
Proof.
  induction ind as [|index ind IH]; intros st i; simpl.
  - eexists; reflexivity.
  - destruct (sn_step_ok m dataSlice time finetime left right st i index) as [st1 H1].
    rewrite H1. simpl. apply IH.
Qed.

Lemma sn_scan_ok (m : SupernovaMetric) (dataSlice : list visit) :
  dataSlice <> [] ->
  ~ 1 + redshift m == 0 ->
  ~ resolution m == 0 ->
  exists st, sn_scan m dataSlice = Ok st.
Proof.
  intros Hne Hz Hres. unfold sn_scan.
  assert (Hsorted : sort_by_time dataSlice <> []).
  { intros Hnil. apply Hne. apply Permutation_nil.
    rewrite <- Hnil. apply sort_by_time_perm. }
  destruct (np_min_ok (l := map expMJD (sort_by_time dataSlice))) as [lo Hlo].
  { intros Hnil. apply map_eq_nil in Hnil. contradiction. }
  rewrite Hlo. simpl rbind.
  destruct (Qeq_bool (1 + redshift m) 0) eqn:Ez.
  { apply Qeq_bool_iff in Ez. contradiction. }
  match goal with
  | |- context [np_max ?t] => destruct (np_max_ok (l := t)) as [hi Hhi]
  end.
  { intros Hnil. apply map_eq_nil in Hnil. apply map_eq_nil in Hnil. contradiction. }
  cbv zeta. rewrite Hhi. simpl rbind.
  destruct (Qeq_bool (resolution m) 0) eqn:Er.
  { apply Qeq_bool_iff in Er. contradiction. }
  apply sn_loop_ok.
Qed.

(** C10.  When no observation of the slice is in a valid filter, [run]
    returns the plain 3-tuple of bad values; in every other case (redshift
    other than -1 and a non-zero resolution, without which [run] raises) it
    returns the dict.  The three reducers index their argument by key: they
    read the dict and raise [TypeError] on the tuple. *)
Theorem SupernovaMetric_run_shape (m : SupernovaMetric) (s : list visit) :
  (List.filter (goodFilters m) s = [] ->
     returned (SupernovaMetric_run m) s
     = Ok (Tuple3 (SN_badval m) (SN_badval m) (SN_badval m))) /\
  (List.filter (goodFilters m) s <> [] ->
   ~ 1 + redshift m == 0 ->
   ~ resolution m == 0 ->
     exists result maxGap Nobs,
       returned (SupernovaMetric_run m) s = Ok (Dict result maxGap Nobs)) /\
  (forall a b c,
      reduceMedianMaxGap m (Tuple3 a b c) = Raise TypeError /\
      reduceNsequences m (Tuple3 a b c) = Raise TypeError /\
      reduceMedianNobs m (Tuple3 a b c) = Raise TypeError) /\
  (forall result maxGap Nobs,
      (exists x, reduceMedianMaxGap m (Dict result maxGap Nobs) = Ok x) /\
      reduceNsequences m (Dict result maxGap Nobs) = Ok (Num (inject_Z result)) /\
      (exists x, reduceMedianNobs m (Dict result maxGap Nobs) = Ok x)).
Proof.
  split; [|split; [|split]].
  - intros Hnone.
    unfold returned, SupernovaMetric_run, bind, read_slice, ret. simpl.
    rewrite Hnone. reflexivity.
  - intros Hsome Hz Hres.
    destruct (sn_scan_ok m Hsome Hz Hres) as [st Hst].
    exists (result_count st), (maxGap_acc st), (Nobs_acc st).
    unfold returned, SupernovaMetric_run, bind, read_slice, ret, lift. simpl.
    destruct (List.filter (goodFilters m) s) as [|v vs] eqn:E; [congruence|].
    simpl. rewrite Hst. reflexivity.
  - intros a b c. repeat split.
  - intros result maxGap Nobs. repeat split; eexists; reflexivity.
Qed.

(** ** SupernovaMetric with uniqueBlocks *)

(** C1.  With [uniqueBlocks] set and the default configuration, on fourteen
    visits ten days apart, [run] counts two sequences: the first covers the
    observation indices [[0, 9)], the second [[5, 14)].  The candidate of the
    second (position 10 in the list of candidates) is compared with
    [right_side = 9], an observation index, and is not skipped although its
    window starts at observation 5. *)
Theorem SupernovaMetric_uniqueBlocks_overlap :
  let m := SupernovaMetric_default true in
  length sn_slice = 14%nat /\
  returned (SupernovaMetric_run m) sn_slice = Ok (Dict 2 [10; 10] [9%Z; 9%Z]) /\
  SupernovaMetric_accepted m sn_slice = Ok [(0, 9); (5, 14)]%nat.
Proof. vm_compute. repeat split. Qed.

(** ** AstroPrecMetric *)

Module AstroPrecFacts.
Import Reals Lra AstroPrec.
Local Open Scope R_scope.

Lemma total_scaled {A : Type} (f : A -> R) (c : R) (l : list A) :
  total (map (fun x => c * f x) l) = c * total (map f l).
Proof.
  unfold total. induction l as [|x l IH]; simpl.
  - lra.
  - rewrite IH. lra.
Qed.

Lemma total_perm (l l' : list R) : Permutation l l' -> total l = total l'.
Proof.
  unfold total. induction 1; simpl; lra.
Qed.

Lemma total_constant {A : Type} (f : A -> R) (c : R) (l : list A) :
  (forall x, In x l -> f x = c) -> total (map f l) = INR (length l) * c.
Proof.
  unfold total. induction l as [|x l IH]; intros Hc.
  - simpl. lra.
  - cbn [map fold_right length]. rewrite S_INR, IH.
    + rewrite (Hc x) by (left; reflexivity). lra.
    + intros y Hy. apply Hc. right; exact Hy.
Qed.

(** What [run] computes, as one expression. *)
Lemma AstroPrecMetric_run_unfold (m : AstroPrecMetric) (s : list visit) :
  returned (AstroPrecMetric_run m) s
  = Ok (rnumber_mul
          (np_mean (map (fun v => precision_mas m v / 1000) s)) 1e3).
Proof.
  unfold returned, AstroPrecMetric_run, bind, read_slice, ret. cbn [fst].
  rewrite map_map. do 3 f_equal.
  apply map_ext. intros v. unfold precision_mas, m52snr. lra.
Qed.

Lemma np_mean_nonempty (x : R) (l : list R) :
  np_mean (x :: l) = RNum (mean (x :: l)).
Proof. reflexivity. Qed.

Lemma AstroPrecMetric_run_nonempty (m : AstroPrecMetric) (v : visit) (s : list visit) :
  returned (AstroPrecMetric_run m) (v :: s)
  = Ok (RNum (mean (map (precision_mas m) (v :: s)))).
Proof.
  rewrite AstroPrecMetric_run_unfold.
  assert (Hsum : total (map (fun w => precision_mas m w / 1000) (v :: s))
                 = / 1000 * total (map (precision_mas m) (v :: s))).
  { rewrite <- total_scaled. f_equal. apply map_ext. intros w. lra. }
  assert (Hn : INR (length (v :: s)) <> 0).
  { cbn [length]. rewrite S_INR. pose proof (pos_INR (length s)). lra. }
  change (map (fun w => precision_mas m w / 1000) (v :: s))
    with (precision_mas m v / 1000 :: map (fun w => precision_mas m w / 1000) s).
  rewrite np_mean_nonempty.
  change (precision_mas m v / 1000 :: map (fun w => precision_mas m w / 1000) s)
    with (map (fun w => precision_mas m w / 1000) (v :: s)).
  unfold mean, rnumber_mul. rewrite !length_map, Hsum. do 2 f_equal.
  field. exact Hn.
Qed.

(** C9.  Over the reals, [AstroPrecMetric.run] on a slice that is not
    empty is the mean over the visits of
    [1000 * sqrt ((seeing / (5 * 10^(-0.4 * (mag - m5))))^2 + atm_limit^2)];
    the result is the same for any permutation of the slice; and when every
    visit has the seeing and the depth of the first, it is the value of
    that single visit. *)
Theorem AstroPrecMetric_run_spec (m : AstroPrecMetric) :
  (forall v s,
      returned (AstroPrecMetric_run m) (v :: s)
      = Ok (RNum (mean (map (precision_mas m) (v :: s))))) /\
  (forall s s',
      Permutation s s' ->
      returned (AstroPrecMetric_run m) s = returned (AstroPrecMetric_run m) s') /\
  (forall v s,
      (forall w, In w s ->
                 (seeing w == seeing v)%Q /\
                 (fiveSigmaDepth w == fiveSigmaDepth v)%Q) ->
      returned (AstroPrecMetric_run m) (v :: s) = Ok (RNum (precision_mas m v))
      /\ returned (AstroPrecMetric_run m) (v :: s)
         = returned (AstroPrecMetric_run m) [v]).
Proof.
  split; [exact (AstroPrecMetric_run_nonempty m)|].
  split.
  - intros s s' Hp.
    destruct s as [|v s].
    + apply Permutation_nil in Hp. subst s'. reflexivity.
    + destruct s' as [|v' s'].
      * apply Permutation_sym, Permutation_nil in Hp. discriminate.
      * rewrite !AstroPrecMetric_run_nonempty. do 2 f_equal.
        unfold mean. rewrite !length_map.
        rewrite (Permutation_length Hp). f_equal.
        apply total_perm, Permutation_map, Hp.
  - intros v s Hconst.
    assert (Hone : returned (AstroPrecMetric_run m) (v :: s)
                   = Ok (RNum (precision_mas m v))).
    { rewrite AstroPrecMetric_run_nonempty. do 2 f_equal.
      unfold mean. rewrite length_map.
      rewrite (@total_constant visit (precision_mas m) (precision_mas m v)).
      - field. cbn [length]. rewrite S_INR. pose proof (pos_INR (length s)). lra.
      - intros w [<-|Hw]; [reflexivity|].
        destruct (Hconst w Hw) as [Hs Hd].
        unfold precision_mas.
        rewrite (Qreals.Qeq_eqR _ _ Hs), (Qreals.Qeq_eqR _ _ Hd). reflexivity. }
    split; [exact Hone|].
    rewrite Hone, AstroPrecMetric_run_nonempty. do 2 f_equal.
    unfold mean, total. simpl. field.
Qed.

Lemma AstroPrecMetric_run_spec_witness :
  returned (AstroPrecMetric_run astro_default)
           [astro_visit 0.7 24; astro_visit 0.9 23.5]
  = returned (AstroPrecMetric_run astro_default)
             [astro_visit 0.9 23.5; astro_visit 0.7 24]
  /\ returned (AstroPrecMetric_run astro_default)
             [astro_visit 0.7 24; astro_visit 0.7 24]
     = Ok (RNum (precision_mas astro_default (astro_visit 0.7 24))).
Proof.
  destruct (AstroPrecMetric_run_spec astro_default) as (_ & Hperm & Hconst).
  split.
  - apply Hperm. apply perm_swap.
  - apply Hconst. intros w [<-|[]]. split; reflexivity.
Defined.
End AstroPrecFacts.

(** ** AstroPrecMetric: rounding *)

Module AstroPrec64Facts.
Import PrimFloat AstroPrec64.
#[local] Set Warnings "-inexact-float".
Local Open Scope float_scope.

(** Two results that [==] tells apart are different ([x] not being a
    not-a-number). *)
Lemma results_differ (x y : float) (r1 r2 : option float) :
  r1 = Some x -> r2 = Some y -> (x =? x) = true -> (x =? y) = false -> r1 <> r2.
Proof.
  intros -> -> Hxx Hxy E.
  apply (f_equal (fun r => match r with Some z => x =? z | None => false end)) in E.
  cbv beta iota in E. rewrite Hxx, Hxy in E. discriminate E.
Qed.

(** C9, in binary64.  As the program computes it, the result is not
    invariant under a permutation of the visits: for magnitude 20, no
    atmospheric floor and three visits of depth 20 with seeing 0.6, 0.7 and
    0.8, handing the visits over as 0.7, 0.8, 0.6 changes the result between
    140 and 139.99999999999997, in either order of summation.  Nor does a
    slice of constant seeing and depth give the single-visit value: three
    visits of seeing 0.5 give 100.00000000000001, one gives 100. *)
Lemma AstroPrecMetric_run_rounding :
  let s1 := map visit_seeing [0.6; 0.7; 0.8] in
  let s2 := map visit_seeing [0.7; 0.8; 0.6] in
  let c3 := map visit_seeing [0.5; 0.5; 0.5] in
  let c1 := map visit_seeing [0.5] in
  Permutation s1 s2 /\
  AstroPrecMetric_run InOrder no_floor s1 = Some 140 /\
  AstroPrecMetric_run InOrder no_floor s2 = Some 139.99999999999997 /\
  AstroPrecMetric_run FirstPlusRest no_floor s1 = Some 139.99999999999997 /\
  AstroPrecMetric_run FirstPlusRest no_floor s2 = Some 140 /\
  AstroPrecMetric_run InOrder no_floor s1 <> AstroPrecMetric_run InOrder no_floor s2 /\
  AstroPrecMetric_run FirstPlusRest no_floor s1
    <> AstroPrecMetric_run FirstPlusRest no_floor s2 /\
  AstroPrecMetric_run InOrder no_floor c3 = Some 100.00000000000001 /\
  AstroPrecMetric_run FirstPlusRest no_floor c3 = Some 100.00000000000001 /\
  AstroPrecMetric_run InOrder no_floor c1 = Some 100 /\
  AstroPrecMetric_run FirstPlusRest no_floor c1 = Some 100 /\
  AstroPrecMetric_run InOrder no_floor c3 <> AstroPrecMetric_run InOrder no_floor c1 /\
  AstroPrecMetric_run FirstPlusRest no_floor c3
    <> AstroPrecMetric_run FirstPlusRest no_floor c1.
Proof.
  cbv zeta.
  split.
  { change (map visit_seeing [0.6; 0.7; 0.8])
      with ([visit_seeing 0.6] ++ map visit_seeing [0.7; 0.8]).
    change (map visit_seeing [0.7; 0.8; 0.6])
      with (map visit_seeing [0.7; 0.8] ++ [visit_seeing 0.6]).
    apply Permutation_app_comm. }
  repeat split;
    try (vm_compute; reflexivity);
    eapply results_differ;
    try (vm_compute; reflexivity).
Qed.
End AstroPrec64Facts.

(** ** The caller's slice after a run *)

Lemma preserves_ret {A : Type} (a : A) : preserves_slice (ret a).
Proof. intros s. reflexivity. Qed.

Lemma preserves_raise {A : Type} (e : pyerr) : preserves_slice (@raise A e).
Proof. intros s. reflexivity. Qed.

Lemma preserves_lift {A : Type} (r : result A) : preserves_slice (lift r).
Proof. intros s. reflexivity. Qed.

Lemma preserves_read : preserves_slice read_slice.
Proof. intros s. reflexivity. Qed.

Lemma preserves_bind {A B : Type} (c : M A) (k : A -> M B) :
  preserves_slice c -> (forall a, preserves_slice (k a)) -> preserves_slice (bind c k).
Proof.
  intros Hc Hk s. unfold slice_after, bind.
  specialize (Hc s). unfold slice_after in Hc.
  destruct (c s) as [[a|e] s']; simpl in *.
  - subst s'. apply Hk.
  - exact Hc.
Qed.

Create HintDb slice_frame.
#[local] Hint Resolve preserves_ret preserves_raise preserves_lift preserves_read
  : slice_frame.

Ltac frame_step :=
  match goal with
  | |- preserves_slice (bind _ _) => apply preserves_bind; [|intros ?]
  | |- preserves_slice (if ?b then _ else _) => destruct b
  | |- preserves_slice (let _ := _ in _) => cbv zeta
  | |- preserves_slice _ => solve [auto with slice_frame]
  end.

Ltac frame := repeat frame_step.

(** After an in-place sort, a computation that only reads leaves the array
    sorted. *)
Lemma sort_then_preserve {A : Type} (c : M A) (s : list visit) :
  preserves_slice c -> slice_after (sort_in_place ;;; c) s = sort_by_time s.
Proof.
  intros Hc. unfold slice_after, bind, sort_in_place. apply Hc.
Qed.

Lemma slice_after_run_cases (mt : metric) (s : list visit) :
  slice_after_run mt s = if sorts_in_place mt then sort_by_time s else s.
Proof.
  destruct mt as [m| |m|m|m|m|m|m|m]; cbn [slice_after_run sorts_in_place].
  - revert s. fold (preserves_slice (SupernovaMetric_run m)).
    unfold SupernovaMetric_run. frame.
  - apply sort_then_preserve. frame.
  - revert s. fold (preserves_slice (UniformityMetric_run m)).
    unfold UniformityMetric_run. frame.
  - revert s. fold (preserves_slice (RapidRevisitMetric_run m)).
    unfold RapidRevisitMetric_run. frame.
  - revert s. fold (preserves_slice (NRevisitsMetric_run m)).
    unfold NRevisitsMetric_run. frame.
  - apply sort_then_preserve. frame.
  - apply sort_then_preserve. frame.
  - apply sort_then_preserve. frame.
  - revert s. fold (preserves_slice (AstroPrec.AstroPrecMetric_run m)).
    unfold AstroPrec.AstroPrecMetric_run. frame.
Qed.

(** C8, counterexample.  [IntraNightGapsMetric.run] hands the caller's
    slice back reordered. *)
Lemma run_reorders_slice :
  slice_after_run (IntraNightGaps (GapsMetric_default (-666))) reversed_pair
  = [visit_at 1; visit_at 2]
  /\ slice_after_run (IntraNightGaps (GapsMetric_default (-666))) reversed_pair
     <> reversed_pair.
Proof.
  split.
  - reflexivity.
  - intros H. discriminate H.
Qed.

(** C8, as the code has it.  For every metric and every slice, [run]
    leaves the caller's slice with the same elements: the slice after the
    call is a permutation of the slice before.  The metrics that do not sort
    the array they were handed (Supernova, Uniformity, RapidRevisit,
    NRevisits, AstroPrec) leave its order unchanged too; the others
    (TemplateExists and the three gap metrics) leave it sorted by time, and
    so unchanged when it was in increasing time order already. *)
Theorem run_slice_effect (mt : metric) (s : list visit) :
  Permutation (slice_after_run mt s) s /\
  (if sorts_in_place mt
   then StronglySorted (fun a b => expMJD a <= expMJD b) (slice_after_run mt s)
   else slice_after_run mt s = s) /\
  (time_ordered s -> slice_after_run mt s = s).
Proof.
  rewrite slice_after_run_cases.
  destruct (sorts_in_place mt).
  - split; [apply sort_by_time_perm|].
    split; [apply sort_by_time_sorted|].
    intros Hs. apply sort_sorted_id.
    eapply StronglySorted_weaken; [|exact Hs].
    intros a b Hab. apply Qle_bool_iff, Qlt_le_weak, Hab.
  - split; [apply Permutation_refl|].
    split; reflexivity.
Qed.

(** ** Concrete instances *)

Lemma UniformityMetric_run_spec_witness :
  (2 <= length three_visits)%nat /\
  ~ surveyLength uniformity_default * 365.25 == 0 /\
  exists (lo : Q) (dates : list Q) (D : Q),
    returned (UniformityMetric_run uniformity_default) three_visits
    = Ok (Num D) /\
    minimum_of (map expMJD three_visits) lo /\
    Permutation dates
      (map (fun v => (expMJD v - lo) / (surveyLength uniformity_default * 365.25))
           three_visits) /\
    StronglySorted Qle dates /\
    length dates = length three_visits /\
    max_deviation dates D.
Proof.
  assert (H1 : (2 <= length three_visits)%nat) by (simpl; lia).
  assert (H2 : ~ surveyLength uniformity_default * 365.25 == 0).
  { intros H. vm_compute in H. discriminate H. }
  split; [exact H1|]. split; [exact H2|].
  exact (proj2 (UniformityMetric_run_spec uniformity_default) _ H1 H2).
Defined.


Lemma InterNightGapsMetric_run_spec_witness :
  returned (InterNightGapsMetric_run (GapsMetric_default (-666)))
           one_night
  = Ok (Num (-666)) /\
  returned (InterNightGapsMetric_run (GapsMetric_default (-666)))
           [visit_at 1.5; visit_at 0.25]
  = Ok (Num (expMJD (visit_at 1.5) - expMJD (visit_at 0.25))).
Proof.
  destruct InterNightGapsMetric_run_spec as [Hfew Htwo].
  split.
  - apply (Hfew (GapsMetric_default (-666))). vm_compute. lia.
  - apply (Htwo (-666) (visit_at 0.25) (visit_at 1.5)).
    + reflexivity.
    + reflexivity.
    + right. reflexivity.
Defined.

Lemma SupernovaMetric_run_shape_witness :
  returned (SupernovaMetric_run (SupernovaMetric_default true)) y_slice
  = Ok (Tuple3 (-666) (-666) (-666)) /\
  exists result maxGap Nobs,
    returned (SupernovaMetric_run (SupernovaMetric_default true)) sn_slice
    = Ok (Dict result maxGap Nobs).
Proof.
  split.
  - apply (proj1 (SupernovaMetric_run_shape (SupernovaMetric_default true) y_slice)).
    reflexivity.
  - apply (proj1 (proj2 (SupernovaMetric_run_shape (SupernovaMetric_default true) sn_slice))).
    + vm_compute. intros H. discriminate H.
    + intros H. vm_compute in H. discriminate H.
    + intros H. vm_compute in H. discriminate H.
Defined.

Lemma run_slice_effect_witness :
  time_ordered [visit_at 1; visit_at 2] /\
  slice_after_run (IntraNightGaps (GapsMetric_default (-666))) [visit_at 1; visit_at 2]
  = [visit_at 1; visit_at 2].
Proof.
  assert (H : time_ordered [visit_at 1; visit_at 2]).
  { repeat constructor. }
  split; [exact H|].
  exact (proj2 (proj2 (run_slice_effect (IntraNightGaps (GapsMetric_default (-666))) _)) H).
Defined.

(** * Further properties of the metrics *)

(** ** Sizes *)

Lemma np_diff_length (l : list Q) : length (np_diff l) = (length l - 1)%nat.
Proof.
  induction l as [|x l IH]; [reflexivity|].
  destruct l as [|y l]; [reflexivity|].
  change (np_diff (x :: y :: l)) with ((y - x) :: np_diff (y :: l)).
  cbn [length] in *. rewrite IH. lia.
Qed.

Lemma np_diffZ_length (l : list Z) : length (np_diffZ l) = (length l - 1)%nat.
Proof.
  induction l as [|x l IH]; [reflexivity|].
  destruct l as [|y l]; [reflexivity|].
  change (np_diffZ (x :: y :: l)) with ((y - x)%Z :: np_diffZ (y :: l)).
  cbn [length] in *. rewrite IH. lia.
Qed.

Lemma filter_length_le {A : Type} (f : A -> bool) (l : list A) :
  (length (List.filter f l) <= length l)%nat.
Proof.
  induction l as [|x l IH]; simpl; [lia|].
  destruct (f x); simpl; lia.
Qed.

Lemma filter_length_mono {A : Type} (f g : A -> bool) (l : list A) :
  (forall x, f x = true -> g x = true) ->
  (length (List.filter f l) <= length (List.filter g l))%nat.
Proof.
  intros Hfg. induction l as [|x l IH]; simpl; [lia|].
  destruct (f x) eqn:Ef.
  - rewrite (Hfg x Ef). simpl. lia.
  - destruct (g x); simpl; lia.
Qed.

Lemma filter_none {A : Type} (f : A -> bool) (l : list A) :
  (forall x, In x l -> f x = false) -> List.filter f l = [].
Proof.
  induction l as [|x l IH]; intros H; simpl; [reflexivity|].
  rewrite (H x) by (left; reflexivity).
  apply IH. intros y Hy. apply H. right; exact Hy.
Qed.

Lemma consecutive_gaps_count (s : list visit) :
  length (np_diff (np_sort (map expMJD s))) = (length s - 1)%nat.
Proof.
  rewrite np_diff_length. unfold np_sort. rewrite sort_length, length_map. reflexivity.
Qed.

Lemma Qnat_le (a b : nat) : (a <= b)%nat -> Qnat a <= Qnat b.
Proof.
  intros H. unfold Qnat, Qle. simpl. lia.
Qed.

Lemma Qnat_lt (a b : nat) : (a < b)%nat -> Qnat a < Qnat b.
Proof.
  intros H. unfold Qnat, Qlt. simpl. lia.
Qed.

(** ** NRevisitsMetric: bounds *)

(** X1.  [N] visits have [N - 1] consecutive gaps, so the count of fast revisits
    is at most [N - 1] and the normed result stays below 1. *)
Theorem NRevisitsMetric_run_bounds (m : NRevisitsMetric) (v : visit) (s : list visit) :
  exists x,
    returned (NRevisitsMetric_run m) (v :: s) = Ok (Num x) /\
    0 <= x /\
    (if normed m then x < 1 else x <= Qnat (length s)).
Proof.
  unfold returned, NRevisitsMetric_run, bind, read_slice, ret, raise.
  cbn [fst]. cbv zeta. rewrite np_where_length, length_map.
  set (n := length (List.filter _ _)).
  assert (Hn : (n <= length s)%nat).
  { subst n. eapply Nat.le_trans; [apply filter_length_le|].
    rewrite consecutive_gaps_count. simpl. lia. }
  destruct (normed m).
  - change (length (v :: s) =? 0)%nat with false. cbv iota. cbn [fst].
    eexists. split; [reflexivity|].
    assert (Hpos : 0 < Qnat (length (v :: s))).
    { change 0 with (Qnat 0). apply Qnat_lt. simpl. lia. }
    split.
    + apply Qle_shift_div_l; [exact Hpos|].
      rewrite Qmult_0_l. change 0 with (Qnat 0). apply Qnat_le. lia.
    + apply Qlt_shift_div_r; [exact Hpos|].
      rewrite Qmult_1_l. apply Qnat_lt. simpl. lia.
  - cbn [fst]. eexists. split; [reflexivity|].
    split.
    + change 0 with (Qnat 0). apply Qnat_le. lia.
    + apply Qnat_le. exact Hn.
Qed.

(** X2.  A larger [dT] never lowers the count of fast revisits. *)
Theorem NRevisitsMetric_run_monotone (m1 m2 : NRevisitsMetric) (s : list visit) :
  normed m1 = false ->
  normed m2 = false ->
  dT m1 <= dT m2 ->
  exists x1 x2,
    returned (NRevisitsMetric_run m1) s = Ok (Num x1) /\
    returned (NRevisitsMetric_run m2) s = Ok (Num x2) /\
    x1 <= x2.
Proof.
  intros H1 H2 Hle.
  unfold returned, NRevisitsMetric_run, bind, read_slice, ret.
  cbn [fst]. cbv zeta. rewrite H1, H2. cbn [fst].
  do 2 eexists. split; [reflexivity|]. split; [reflexivity|].
  apply Qnat_le. rewrite !np_where_length. apply filter_length_mono.
  intros x Hx. apply Qle_bool_iff in Hx. apply Qle_bool_iff.
  eapply Qle_trans; eassumption.
Qed.

(** ** RapidRevisitMetric: too few visits, empty interval *)

(** X3.  A slice with no more visits than [minNvisits] cannot have [minNvisits]
    gaps; with the constructor's floor of 2, every slice of at most two
    visits gives the bad value. *)
Theorem RapidRevisitMetric_run_few_visits
  (minN : Z) (dTmin0 dTmax0 badval : Q) (s : list visit) :
  let m := RapidRevisitMetric_init minN dTmin0 dTmax0 badval in
  (Z.of_nat (length s) <= minNvisits m)%Z \/ (length s <= 2)%nat ->
  returned (RapidRevisitMetric_run m) s = Ok (Num badval).
Proof.
  intros m Hfew.
  assert (Hfloor : (2 <= minNvisits m)%Z).
  { subst m. simpl. destruct (Z.leb_spec minN 1); lia. }
  unfold returned, RapidRevisitMetric_run, bind, read_slice, ret. cbn [fst]. cbv zeta.
  rewrite np_where_length.
  match goal with
  | |- context [List.filter ?f ?l] =>
      pose proof (filter_length_le f l) as Hlen
  end.
  rewrite consecutive_gaps_count in Hlen.
  match goal with
  | |- context [(?a <? ?b)%Z] => destruct (Z.ltb_spec a b) as [_|Hge]
  end.
  - reflexivity.
  - exfalso. destruct Hfew; lia.
Qed.

(** X4.  When [dTmax] is below [dTmin] no gap can be in range, and the result is
    the bad value on every slice. *)
Theorem RapidRevisitMetric_run_empty_interval
  (minN : Z) (dTmin0 dTmax0 badval : Q) (s : list visit) :
  dTmax0 < dTmin0 ->
  returned (RapidRevisitMetric_run (RapidRevisitMetric_init minN dTmin0 dTmax0 badval)) s
  = Ok (Num badval).
Proof.
  intros Hempty.
  set (m := RapidRevisitMetric_init minN dTmin0 dTmax0 badval).
  assert (Hfloor : (2 <= minNvisits m)%Z).
  { subst m. simpl. destruct (Z.leb_spec minN 1); lia. }
  unfold returned, RapidRevisitMetric_run, bind, read_slice, ret. cbn [fst]. cbv zeta.
  rewrite np_where_length.
  match goal with
  | |- context [List.filter ?f ?l] =>
      assert (Hnone : List.filter f l = [])
  end.
  { apply filter_none. intros d _. cbn [dTmin dTmax m RapidRevisitMetric_init].
    destruct (Qle_bool dTmin0 d && Qle_bool d dTmax0) eqn:E; [|reflexivity].
    apply andb_true_iff in E. rewrite !Qle_bool_iff in E. lra. }
  rewrite Hnone.
  match goal with
  | |- context [(?a <? ?b)%Z] => destruct (Z.ltb_spec a b) as [_|Hge]
  end.
  - reflexivity.
  - change (Z.of_nat (length (@nil Q))) with 0%Z in Hge. lia.
Qed.

(** ** A sorted array is determined by its elements *)

Section SortUnique.
Variable A : Type.
Variable leb : A -> A -> bool.
Hypothesis leb_total : forall a b, leb a b = true \/ leb b a = true.
Hypothesis leb_trans : forall a b c, leb a b = true -> leb b c = true -> leb a c = true.

Let le (a b : A) : Prop := leb a b = true.

Lemma sorted_perm_unique (l : list A) :
  forall l',
    StronglySorted le l -> StronglySorted le l' -> Permutation l l' ->
    (forall a b, In a l -> In b l -> le a b -> le b a -> a = b) ->
    l = l'.
Proof.
  induction l as [|x t IH]; intros l' Hs Hs' Hp Hanti.
  - apply Permutation_nil in Hp. congruence.
  - destruct l' as [|x' t'].
    { apply Permutation_sym, Permutation_nil in Hp. discriminate. }
    inversion Hs as [|? ? Hst Hxt]; subst.
    inversion Hs' as [|? ? Hst' Hxt']; subst.
    rewrite Forall_forall in Hxt, Hxt'.
    assert (Hx : x = x').
    { assert (Hin : In x (x' :: t')).
      { eapply Permutation_in; [exact Hp|left; reflexivity]. }
      assert (Hin' : In x' (x :: t)).
      { eapply Permutation_in; [apply Permutation_sym, Hp|left; reflexivity]. }
      destruct Hin as [E|Hin]; [congruence|].
      destruct Hin' as [E|Hin']; [congruence|].
      apply Hanti.
      - left; reflexivity.
      - right; exact Hin'.
      - apply Hxt, Hin'.
      - apply Hxt', Hin. }
    subst x'. f_equal.
    apply IH; try assumption.
    + eapply Permutation_cons_inv, Hp.
    + intros a b Ha Hb. apply Hanti; right; assumption.
Qed.

Lemma sort_perm_invariant (l l' : list A) :
  Permutation l l' ->
  (forall a b, In a l -> In b l -> le a b -> le b a -> a = b) ->
  sort leb l = sort leb l'.
Proof.
  intros Hp Hanti. apply sorted_perm_unique.
  - apply sort_sorted; assumption.
  - apply sort_sorted; assumption.
  - eapply perm_trans; [apply sort_perm|].
    eapply perm_trans; [exact Hp|]. apply Permutation_sym, sort_perm.
  - intros a b Ha Hb. apply Hanti; apply (sort_in leb l); assumption.
Qed.

Lemma sort_idempotent (l : list A) : sort leb (sort leb l) = sort leb l.
Proof.
  apply sort_sorted_id. apply sort_sorted; assumption.
Qed.
End SortUnique.

Lemma sort_by_time_perm_invariant (s s' : list visit) :
  Permutation s s' -> time_determines s -> sort_by_time s = sort_by_time s'.
Proof.
  intros Hp Hdet. apply sort_perm_invariant.
  - intros a b. apply Qle_bool_total.
  - intros a b c. apply Qle_bool_trans.
  - exact Hp.
  - intros a b Ha Hb Hab Hba. apply Hdet; try assumption.
    apply Qle_bool_iff in Hab, Hba. apply Qle_antisym; assumption.
Qed.

Lemma sort_by_time_idempotent (s : list visit) :
  sort_by_time (sort_by_time s) = sort_by_time s.
Proof.
  apply sort_idempotent.
  - intros a b. apply Qle_bool_total.
  - intros a b c. apply Qle_bool_trans.
Qed.

Lemma np_sort_perm_invariant (l l' : list Q) :
  Permutation l l' ->
  (forall a b, In a l -> In b l -> a == b -> a = b) ->
  np_sort l = np_sort l'.
Proof.
  intros Hp Hcanon. apply sort_perm_invariant.
  - apply Qle_bool_total.
  - apply Qle_bool_trans.
  - exact Hp.
  - intros a b Ha Hb Hab Hba. apply Hcanon; try assumption.
    apply Qle_bool_iff in Hab, Hba. apply Qle_antisym; assumption.
Qed.

Lemma time_determines_column (s : list visit) :
  time_determines s ->
  forall a b, In a (map expMJD s) -> In b (map expMJD s) -> a == b -> a = b.
Proof.
  intros Hdet a b Ha Hb Hab.
  apply in_map_iff in Ha, Hb.
  destruct Ha as (va & <- & Ha). destruct Hb as (vb & <- & Hb).
  f_equal. apply Hdet; assumption.
Qed.

(** What a metric that sorts in place returns depends on the sorted slice
    only. *)
Lemma returned_after_sort {A : Type} (c : M A) (s : list visit) :
  returned (sort_in_place ;;; c) s = returned c (sort_by_time s).
Proof. reflexivity. Qed.

(** ** The order in which the slice is handed over *)

(** X5.  The metrics that sort the slice by time return the same result for the
    same visits in any order, as long as visits at equal times are equal. *)
Theorem sorting_metrics_order_independent (m : GapsMetric) (s s' : list visit) :
  Permutation s s' ->
  time_determines s ->
  returned (IntraNightGapsMetric_run m) s = returned (IntraNightGapsMetric_run m) s' /\
  returned (InterNightGapsMetric_run m) s = returned (InterNightGapsMetric_run m) s' /\
  returned (AveGapMetric_run m) s = returned (AveGapMetric_run m) s' /\
  returned TemplateExistsMetric_run s = returned TemplateExistsMetric_run s'.
Proof.
  intros Hp Hdet.
  pose proof (sort_by_time_perm_invariant Hp Hdet) as Hsort.
  unfold IntraNightGapsMetric_run, InterNightGapsMetric_run, AveGapMetric_run,
    TemplateExistsMetric_run.
  rewrite !returned_after_sort, Hsort. repeat split.
Qed.

(** X6.  Running such a metric a second time, on the slice the first run left
    behind, gives the same result and leaves the slice as it is. *)
Theorem sorting_metrics_idempotent (m : GapsMetric) (s : list visit) :
  returned (IntraNightGapsMetric_run m) (slice_after (IntraNightGapsMetric_run m) s)
  = returned (IntraNightGapsMetric_run m) s /\
  returned (InterNightGapsMetric_run m) (slice_after (InterNightGapsMetric_run m) s)
  = returned (InterNightGapsMetric_run m) s /\
  returned (AveGapMetric_run m) (slice_after (AveGapMetric_run m) s)
  = returned (AveGapMetric_run m) s /\
  returned TemplateExistsMetric_run (slice_after TemplateExistsMetric_run s)
  = returned TemplateExistsMetric_run s /\
  forall mt, slice_after_run mt (slice_after_run mt s) = slice_after_run mt s.
Proof.
  assert (Hafter : forall (A : Type) (c : M A),
             preserves_slice c -> slice_after (sort_in_place ;;; c) s = sort_by_time s).
  { intros A c Hc. apply sort_then_preserve, Hc. }
  assert (Hagain : forall (A : Type) (c : M A),
             preserves_slice c ->
             returned (sort_in_place ;;; c) (slice_after (sort_in_place ;;; c) s)
             = returned (sort_in_place ;;; c) s).
  { intros A c Hc. rewrite (Hafter _ c Hc), !returned_after_sort, sort_by_time_idempotent.
    reflexivity. }
  split; [|split; [|split; [|split]]].
  - apply Hagain. frame.
  - apply Hagain. frame.
  - apply Hagain. frame.
  - apply Hagain. frame.
  - intros mt. rewrite !slice_after_run_cases.
    destruct (sorts_in_place mt); [apply sort_by_time_idempotent|reflexivity].
Qed.

Lemma filter_perm {A : Type} (f : A -> bool) (l l' : list A) :
  Permutation l l' -> Permutation (List.filter f l) (List.filter f l').
Proof.
  induction 1 as [|x l l' _ IH|x y l|l l' l'' _ IH1 _ IH2]; simpl.
  - apply perm_nil.
  - destruct (f x); [apply perm_skip|]; exact IH.
  - destruct (f x), (f y); try apply Permutation_refl. apply perm_swap.
  - eapply perm_trans; eassumption.
Qed.

Lemma np_min_perm_invariant (l l' : list Q) :
  Permutation l l' ->
  (forall a b, In a l -> In b l -> a == b -> a = b) ->
  np_min l = np_min l'.
Proof.
  intros Hp Hcanon.
  destruct l as [|x t].
  { apply Permutation_nil in Hp. subst l'. reflexivity. }
  destruct l' as [|x' t'].
  { apply Permutation_sym, Permutation_nil in Hp. discriminate. }
  destruct (np_min_ok (l := x :: t)) as [lo Hlo]; [discriminate|].
  destruct (np_min_ok (l := x' :: t')) as [lo' Hlo']; [discriminate|].
  rewrite Hlo, Hlo'. f_equal.
  apply np_min_spec in Hlo, Hlo'.
  destruct Hlo as [Hin Hle], Hlo' as [Hin' Hle'].
  assert (Hin2 : In lo' (x :: t)).
  { eapply Permutation_in; [apply Permutation_sym, Hp|exact Hin']. }
  apply Hcanon; try assumption.
  apply Qle_antisym.
  - apply Hle. exact Hin2.
  - apply Hle'. eapply Permutation_in; [exact Hp|exact Hin].
Qed.

Lemma rescale_injective (lo scale a b : Q) :
  ~ scale == 0 -> (a - lo) / scale == (b - lo) / scale -> a == b.
Proof.
  intros Hs Hab.
  assert (Ha : a == (a - lo) / scale * scale + lo) by (field; exact Hs).
  assert (Hb : b == (b - lo) / scale * scale + lo) by (field; exact Hs).
  rewrite Ha, Hb, Hab. reflexivity.
Qed.

Ltac settle_returned :=
  repeat (match goal with
          | |- context [if ?b then _ else _] => destruct b
          | |- context [match ?r with Ok _ => _ | Raise _ => _ end] => destruct r
          end; unfold ret, raise, lift; cbn [fst]);
  try reflexivity.

(** X7.  The metrics that work on a sorted copy of the time column return the
    same result for the same visits in any order, as long as visits at
    equal times are equal. *)
Theorem copying_metrics_order_independent
  (mn : NRevisitsMetric) (mr : RapidRevisitMetric) (mu : UniformityMetric)
  (ms : SupernovaMetric) (s s' : list visit) :
  Permutation s s' ->
  time_determines s ->
  returned (NRevisitsMetric_run mn) s = returned (NRevisitsMetric_run mn) s' /\
  returned (RapidRevisitMetric_run mr) s = returned (RapidRevisitMetric_run mr) s' /\
  returned (UniformityMetric_run mu) s = returned (UniformityMetric_run mu) s' /\
  returned (SupernovaMetric_run ms) s = returned (SupernovaMetric_run ms) s'.
Proof.
  intros Hp Hdet.
  pose proof (time_determines_column Hdet) as Hcanon.
  assert (Hcol : Permutation (map expMJD s) (map expMJD s')) by apply Permutation_map, Hp.
  pose proof (np_sort_perm_invariant Hcol Hcanon) as Hsort.
  pose proof (Permutation_length Hp) as Hlen.
  split; [|split; [|split]].
  - unfold returned, NRevisitsMetric_run, bind, read_slice. cbn [fst]. cbv zeta.
    rewrite Hsort, !length_map, Hlen. settle_returned.
  - unfold returned, RapidRevisitMetric_run, bind, read_slice. cbn [fst]. cbv zeta.
    rewrite Hsort. settle_returned.
  - unfold returned, UniformityMetric_run, bind, read_slice, lift. cbn [fst]. cbv zeta.
    rewrite !length_map, Hlen, <- (np_min_perm_invariant Hcol Hcanon).
    destruct (length s' =? 1)%nat; [reflexivity|].
    destruct (np_min (map expMJD s)) as [lo|e]; [|reflexivity].
    destruct (Qeq_bool (surveyLength mu * 365.25) 0) eqn:Ez; [reflexivity|].
    assert (Hscale : ~ surveyLength mu * 365.25 == 0).
    { intros H. apply Qeq_bool_iff in H. congruence. }
    rewrite (@np_sort_perm_invariant
               (map (fun t => (t - lo) / (surveyLength mu * 365.25)) (map expMJD s))
               (map (fun t => (t - lo) / (surveyLength mu * 365.25)) (map expMJD s'))).
    + settle_returned.
    + apply Permutation_map, Hcol.
    + intros a b Ha Hb Hab.
      apply in_map_iff in Ha, Hb.
      destruct Ha as (ta & <- & Ha). destruct Hb as (tb & <- & Hb).
      rewrite (Hcanon ta tb Ha Hb); [reflexivity|].
      eapply rescale_injective; eassumption.
  - unfold returned, SupernovaMetric_run, bind, read_slice, lift. cbn [fst]. cbv zeta.
    pose proof (filter_perm (goodFilters ms) Hp) as Hpf.
    rewrite (Permutation_length Hpf).
    assert (Hscan : sn_scan ms (List.filter (goodFilters ms) s)
                    = sn_scan ms (List.filter (goodFilters ms) s')).
    { unfold sn_scan. cbv zeta.
      rewrite (@sort_by_time_perm_invariant (List.filter (goodFilters ms) s)
                                             (List.filter (goodFilters ms) s')).
      - reflexivity.
      - exact Hpf.
      - intros a b Ha Hb. apply Hdet.
        + apply filter_In in Ha. apply Ha.
        + apply filter_In in Hb. apply Hb. }
    rewrite Hscan. settle_returned.
Qed.

(** ** Positions and differences *)

Lemma np_where_all_from {A : Type} (cond : A -> bool) (a : list A) (k : nat) :
  (forall x, In x a -> cond x = true) ->
  map fst (List.filter (fun p => cond (snd p)) (combine (seq k (length a)) a))
  = seq k (length a).
Proof.
  revert k. induction a as [|x a IH]; intros k Hall; simpl.
  - reflexivity.
  - rewrite (Hall x) by (left; reflexivity). simpl. f_equal.
    apply IH. intros y Hy. apply Hall. right; exact Hy.
Qed.

Lemma np_where_all {A : Type} (cond : A -> bool) (a : list A) :
  (forall x, In x a -> cond x = true) -> np_where cond a = seq 0 (length a).
Proof. apply np_where_all_from. Qed.

Lemma take_at_all {A : Type} (d : A) (a : list A) :
  take_at d a (seq 0 (length a)) = a.
Proof.
  rewrite <- (np_where_all (fun _ => true) a) by reflexivity.
  rewrite take_at_where.
  induction a as [|x a IH]; simpl; [reflexivity|]. f_equal. exact IH.
Qed.

Lemma np_diffZ_constant (n : Z) (l : list Z) :
  (forall x, In x l -> x = n) -> forall d, In d (np_diffZ l) -> d = 0%Z.
Proof.
  induction l as [|x l IH]; intros Hall d Hd; [destruct Hd|].
  destruct l as [|y l]; [destruct Hd|].
  change (np_diffZ (x :: y :: l)) with ((y - x)%Z :: np_diffZ (y :: l)) in Hd.
  destruct Hd as [<-|Hd].
  - rewrite (Hall x), (Hall y); [lia| right; left; reflexivity | left; reflexivity].
  - apply IH; [|exact Hd]. intros z Hz. apply Hall. right; exact Hz.
Qed.

Lemma np_diffZ_distinct (l : list Z) :
  NoDup l -> forall d, In d (np_diffZ l) -> d <> 0%Z.
Proof.
  induction 1 as [|x l Hx Hnd IH]; intros d Hd; [destruct Hd|].
  destruct l as [|y l]; [destruct Hd|].
  change (np_diffZ (x :: y :: l)) with ((y - x)%Z :: np_diffZ (y :: l)) in Hd.
  destruct Hd as [<-|Hd].
  - intros E. apply Hx. left. lia.
  - apply IH. exact Hd.
Qed.

Lemma np_diff_sorted_nonneg (l : list Q) :
  StronglySorted Qle l -> forall d, In d (np_diff l) -> 0 <= d.
Proof.
  induction 1 as [|x l Hs IH Hall]; intros d Hd; [destruct Hd|].
  destruct l as [|y l]; [destruct Hd|].
  change (np_diff (x :: y :: l)) with ((y - x) :: np_diff (y :: l)) in Hd.
  destruct Hd as [<-|Hd].
  - inversion Hall; subst. lra.
  - apply IH. exact Hd.
Qed.

Lemma sorted_times (s : list visit) :
  StronglySorted Qle (map expMJD (sort_by_time s)).
Proof.
  pose proof (sort_by_time_sorted s) as H.
  induction H as [|x l Hs IH Hall]; simpl; constructor.
  - exact IH.
  - apply Forall_map. exact Hall.
Qed.

(** ** The median *)

(** The median of an array that is not empty is one of its elements or the
    mean of two of them. *)
Lemma np_median_cases (l : list Q) :
  l <> [] ->
  exists a b, In a l /\ In b l /\
              (np_median l = Num a \/ np_median l = Num ((a + b) / 2)).
Proof.
  intros Hne. unfold np_median.
  pose proof (np_sort_perm l) as Hp.
  set (s := np_sort l) in *.
  assert (Hn : (0 < length s)%nat).
  { rewrite (Permutation_length Hp). destruct l; [congruence|simpl; lia]. }
  assert (Hmid : (length s / 2 < length s)%nat) by (apply Nat.div_lt; lia).
  assert (Hin : forall i, (i < length s)%nat -> In (nth i s 0) l).
  { intros i Hi. eapply Permutation_in; [exact Hp|]. apply nth_In. exact Hi. }
  destruct (length s) as [|n] eqn:E; [lia|].
  destruct (Nat.even (S n)).
  - exists (nth (S n / 2 - 1) s 0), (nth (S n / 2) s 0).
    split; [apply Hin; lia|]. split; [apply Hin; lia|]. right. reflexivity.
  - exists (nth (S n / 2) s 0), (nth (S n / 2) s 0).
    split; [apply Hin; lia|]. split; [apply Hin; lia|]. left. reflexivity.
Qed.

Lemma np_median_nonneg (l : list Q) :
  l <> [] -> (forall y, In y l -> 0 <= y) ->
  exists x, np_median l = Num x /\ 0 <= x.
Proof.
  intros Hne Hall.
  destruct (np_median_cases Hne) as (a & b & Ha & Hb & [E|E]); rewrite E.
  - exists a. split; [reflexivity|]. apply Hall, Ha.
  - exists ((a + b) / 2). split; [reflexivity|].
    pose proof (Hall a Ha). pose proof (Hall b Hb).
    apply Qle_shift_div_l; lra.
Qed.

(** ** The gap metrics *)

(** X8.  When all the visits of a slice of at least two are in one night, the
    intra-night gaps are all the consecutive gaps: [IntraNightGapsMetric]
    and [AveGapMetric] return the same. *)
Theorem IntraNightGaps_single_night (m : GapsMetric) (s : list visit) (n : Z) :
  (forall v, In v s -> night v = n) ->
  (2 <= length s)%nat ->
  returned (IntraNightGapsMetric_run m) s = returned (AveGapMetric_run m) s.
Proof.
  intros Hnight Hlen.
  unfold IntraNightGapsMetric_run, AveGapMetric_run.
  rewrite !returned_after_sort.
  set (ds := sort_by_time s).
  assert (Hdl : length ds = length s) by apply sort_length.
  unfold returned, bind, read_slice, lift, ret. cbn [fst]. cbv zeta.
  assert (Hzero : forall d, In d (np_diffZ (map night ds)) -> (d =? 0)%Z = true).
  { intros d Hd. apply Z.eqb_eq. apply (np_diffZ_constant (n := n)) with (l := map night ds).
    - intros x Hx. apply in_map_iff in Hx. destruct Hx as (v & <- & Hv).
      apply Hnight. eapply Permutation_in; [apply sort_by_time_perm|exact Hv].
    - exact Hd. }
  rewrite (np_where_all _ _ Hzero).
  assert (Hsame : length (np_diffZ (map night ds)) = length (np_diff (map expMJD ds))).
  { rewrite np_diffZ_length, np_diff_length, !length_map. reflexivity. }
  rewrite Hsame, take_at_all, length_seq.
  assert (Hpos : (length (np_diff (map expMJD ds)) =? 0)%nat = false).
  { apply Nat.eqb_neq. rewrite np_diff_length, length_map. lia. }
  rewrite Hpos. reflexivity.
Qed.

(** X9.  When no two visits share a night there is no intra-night gap, and the
    result is the bad value whatever the reducing function. *)
Theorem IntraNightGaps_distinct_nights (m : GapsMetric) (s : list visit) :
  NoDup (map night s) ->
  returned (IntraNightGapsMetric_run m) s = Ok (Num (G_badval m)).
Proof.
  intros Hnd.
  unfold IntraNightGapsMetric_run. rewrite returned_after_sort.
  set (ds := sort_by_time s).
  assert (Hnd' : NoDup (map night ds)).
  { eapply Permutation_NoDup; [|exact Hnd].
    apply Permutation_map, Permutation_sym, sort_by_time_perm. }
  unfold returned, bind, read_slice, ret. cbn [fst]. cbv zeta.
  rewrite np_where_length, filter_none.
  - reflexivity.
  - intros d Hd. apply Z.eqb_neq. apply (np_diffZ_distinct Hnd'). exact Hd.
Qed.

(** X10.  With at least two visits and the default median, [AveGapMetric.run]
    returns a number that is not negative. *)
Theorem AveGapMetric_run_nonneg (badval : Q) (s : list visit) :
  (2 <= length s)%nat ->
  exists x,
    returned (AveGapMetric_run (GapsMetric_default badval)) s = Ok (Num x) /\ 0 <= x.
Proof.
  intros Hlen.
  unfold AveGapMetric_run. rewrite returned_after_sort.
  set (ds := sort_by_time s).
  assert (Hdl : length ds = length s) by apply sort_length.
  destruct (@np_median_nonneg (np_diff (map expMJD ds))) as (x & Hx & Hx0).
  - intros Hnil.
    assert (H0 : length (np_diff (map expMJD ds)) = 0%nat) by (rewrite Hnil; reflexivity).
    rewrite np_diff_length, length_map in H0. lia.
  - apply np_diff_sorted_nonneg, sorted_times.
  - exists (x * 24).
    unfold returned, bind, read_slice, lift, ret. cbn [fst]. cbv zeta.
    cbn [reduceFunc GapsMetric_default]. unfold median_reducer. rewrite Hx.
    split; [reflexivity|]. nra.
Qed.

(** ** SupernovaMetric: what the loop keeps true *)

Lemma py_slice_length {A : Type} (a : list A) (l r : nat) :
  (length (py_slice a l r) <= length a)%nat.
Proof.
  unfold py_slice. rewrite length_firstn, length_skipn. lia.
Qed.

Ltac sn_cases H :=
  repeat match type of H with
         | (if ?c then _ else _) = _ => destruct c eqn:?
         | rbind ?r _ = _ => destruct r eqn:?; cbn [rbind] in H
         | Raise _ = Ok _ => discriminate H
         end.

Lemma sn_step_invariant (m : SupernovaMetric) (dataSlice : list visit)
  (time finetime : list Q) (left right : list nat) (st st' : sn_state) (i index : nat) :
  sn_step m dataSlice time finetime left right st i index = Ok st' ->
  sn_invariant m (length time) st ->
  sn_invariant m (length time) st'.
Proof.
  intros Hstep Hinv. unfold sn_step in Hstep. cbv zeta in Hstep.
  sn_cases Hstep; injection Hstep as <-; try exact Hinv.
  destruct Hinv as (H1 & H2 & H3 & H4 & H5).
  unfold sn_invariant. cbn [result_count maxGap_acc Nobs_acc accepted].
  rewrite !length_app. cbn [length].
  repeat split.
  - lia.
  - lia.
  - lia.
  - apply Forall_app. split; [exact H4|]. constructor; [|constructor].
    match goal with
    | E : Qltb _ (peakGap m) = true |- _ =>
        unfold Qltb in E; apply negb_true_iff in E
    end.
    match goal with
    | |- ?g < _ => destruct (Qlt_le_dec g (peakGap m)) as [Hlt|Hge]; [exact Hlt|]
    end.
    apply Qle_bool_iff in Hge. congruence.
  - apply Forall_app. split; [exact H5|]. constructor; [|constructor].
    split.
    + match goal with
      | E : (Z.of_nat (length ?t) >? Nbetween m)%Z = true |- _ =>
          apply Z.gtb_lt in E; exact E
      end.
    + rewrite length_map. apply Nat2Z.inj_le, py_slice_length.
Qed.

Lemma sn_loop_invariant (m : SupernovaMetric) (dataSlice : list visit)
  (time finetime : list Q) (left right : list nat) (ind : list nat) :
  forall (st st' : sn_state) (i : nat),
    sn_loop m dataSlice time finetime left right st i ind = Ok st' ->
    sn_invariant m (length time) st ->
    sn_invariant m (length time) st'.
Proof.
  induction ind as [|index ind IH]; intros st st' i Hloop Hinv; simpl in Hloop.
  - injection Hloop as <-. exact Hinv.
  - destruct (sn_step m dataSlice time finetime left right st i index) as [st1|e] eqn:E;
      [|discriminate].
    simpl in Hloop. eapply IH; [exact Hloop|].
    eapply sn_step_invariant; eassumption.
Qed.

Lemma sn_init_invariant (m : SupernovaMetric) (n : nat) : sn_invariant m n sn_init.
Proof.
  unfold sn_invariant, sn_init. simpl. repeat split; constructor.
Qed.

Lemma sn_scan_invariant (m : SupernovaMetric) (dataSlice : list visit) (st : sn_state) :
  sn_scan m dataSlice = Ok st -> sn_invariant m (length dataSlice) st.
Proof.
  unfold sn_scan. cbv zeta. intros H.
  sn_cases H.
  apply sn_loop_invariant in H.
  - rewrite !length_map in H. unfold sort_by_time in H. rewrite sort_length in H. exact H.
  - apply sn_init_invariant.
Qed.

Lemma sn_run_invariant (m : SupernovaMetric) (s : list visit)
  (result : Z) (maxGap : list Q) (Nobs : list Z) :
  returned (SupernovaMetric_run m) s = Ok (Dict result maxGap Nobs) ->
  exists st,
    sn_scan m (List.filter (goodFilters m) s) = Ok st /\
    result = result_count st /\ maxGap = maxGap_acc st /\ Nobs = Nobs_acc st.
Proof.
  unfold returned, SupernovaMetric_run, bind, read_slice, lift, ret. cbn [fst]. cbv zeta.
  destruct (length (List.filter (goodFilters m) s) =? 0)%nat; [discriminate|].
  destruct (sn_scan m (List.filter (goodFilters m) s)) as [st|e]; [|discriminate].
  cbn [fst]. intros H. injection H as <- <- <-.
  exists st. repeat split.
Qed.

(** X14.  In the dict [run] returns, the count of sequences is the size of both
    arrays; every recorded maximum gap is below [peakGap]; every recorded
    number of observations is above [Nbetween] and no more than the number
    of visits in a valid filter. *)
Theorem SupernovaMetric_run_dict_invariant (m : SupernovaMetric) (s : list visit)
  (result : Z) (maxGap : list Q) (Nobs : list Z) :
  returned (SupernovaMetric_run m) s = Ok (Dict result maxGap Nobs) ->
  result = Z.of_nat (length maxGap) /\
  length Nobs = length maxGap /\
  Forall (fun g => g < peakGap m) maxGap /\
  Forall (fun n => (Nbetween m < n <= Z.of_nat (length (List.filter (goodFilters m) s)))%Z)
         Nobs.
Proof.
  intros Hrun.
  destruct (sn_run_invariant _ _ Hrun) as (st & Hscan & -> & -> & ->).
  apply sn_scan_invariant in Hscan.
  destruct Hscan as (H1 & H2 & H3 & H4 & H5).
  repeat split; assumption.
Qed.

Lemma np_where_none {A : Type} (cond : A -> bool) (a : list A) :
  (forall x, In x a -> cond x = false) -> np_where cond a = [].
Proof.
  intros H. apply length_zero_iff_nil.
  rewrite np_where_length, (filter_none _ _ H). reflexivity.
Qed.

Lemma inject_Z_lt (a b : Z) : (a < b)%Z -> inject_Z a < inject_Z b.
Proof. intros H. rewrite <- Zlt_Qlt. exact H. Qed.

(** The median of an array that is not empty lies strictly between any
    bounds its elements lie strictly between. *)
Lemma np_median_strict_bounds (l : list Q) (lo hi : Q) :
  l <> [] -> (forall y, In y l -> lo < y /\ y < hi) ->
  exists x, np_median l = Num x /\ lo < x /\ x < hi.
Proof.
  intros Hne Hall.
  destruct (np_median_cases Hne) as (a & b & Ha & Hb & [E|E]); rewrite E.
  - exists a. split; [reflexivity|]. apply Hall, Ha.
  - exists ((a + b) / 2). split; [reflexivity|].
    destruct (Hall a Ha), (Hall b Hb). split.
    + apply Qlt_shift_div_l; lra.
    + apply Qlt_shift_div_r; lra.
Qed.

(** X16.  On a dict that [run] returned: when no sequence was found, the two
    median reducers give the bad value while [reduceNsequences] gives 0;
    when some were found, the median maximum gap is a number below
    [peakGap] and the median number of observations a number above
    [Nbetween]. *)
Theorem SupernovaMetric_reducers_on_dict (m : SupernovaMetric) (s : list visit)
  (result : Z) (maxGap : list Q) (Nobs : list Z) :
  returned (SupernovaMetric_run m) s = Ok (Dict result maxGap Nobs) ->
  (result = 0%Z ->
     reduceMedianMaxGap m (Dict result maxGap Nobs) = Ok (Num (SN_badval m)) /\
     reduceMedianNobs m (Dict result maxGap Nobs) = Ok (Num (SN_badval m)) /\
     reduceNsequences m (Dict result maxGap Nobs) = Ok (Num 0)) /\
  ((0 < result)%Z ->
     exists x y,
       reduceMedianMaxGap m (Dict result maxGap Nobs) = Ok (Num x) /\ x < peakGap m /\
       reduceMedianNobs m (Dict result maxGap Nobs) = Ok (Num y) /\
       inject_Z (Nbetween m) < y).
Proof.
  intros Hrun.
  destruct (sn_run_invariant _ _ Hrun) as (st & Hscan & -> & -> & ->).
  apply sn_scan_invariant in Hscan.
  destruct Hscan as (H1 & H2 & _ & H4 & H5).
  rewrite Forall_forall in H4, H5.
  split.
  - intros H0. rewrite H0 in *.
    destruct (maxGap_acc st) as [|g gs]; [|simpl in H1; lia].
    destruct (Nobs_acc st) as [|n ns]; [|simpl in H2; lia].
    repeat split.
  - intros Hpos.
    destruct (@np_median_strict_bounds (maxGap_acc st)
                (fold_right Qmin2 (peakGap m) (maxGap_acc st) - 1) (peakGap m))
      as (x & Hx & _ & Hxp).
    + intros Hnil. rewrite Hnil in H1. simpl in H1. lia.
    + intros y Hy. split; [|apply H4, Hy].
      clear - Hy. induction (maxGap_acc st) as [|g gs IH]; [destruct Hy|].
      simpl. unfold Qmin2 at 1.
      destruct (Qle_bool g (fold_right Qmin2 (peakGap m) gs)) eqn:E.
      * apply Qle_bool_iff in E. destruct Hy as [->|Hy]; [lra|].
        specialize (IH Hy). lra.
      * assert (fold_right Qmin2 (peakGap m) gs <= g).
        { destruct (Qle_bool_total g (fold_right Qmin2 (peakGap m) gs)) as [H|H];
            [congruence|apply Qle_bool_iff, H]. }
        destruct Hy as [->|Hy]; [lra|]. specialize (IH Hy). lra.
    + destruct (@np_median_strict_bounds (map inject_Z (Nobs_acc st))
                  (inject_Z (Nbetween m))
                  (inject_Z (Z.of_nat (length (List.filter (goodFilters m) s)) + 1)))
        as (y & Hy & Hyl & _).
      * intros Hnil. apply map_eq_nil in Hnil. rewrite Hnil in H2.
        rewrite <- H2 in H1. simpl in H1. lia.
      * intros q Hq. apply in_map_iff in Hq. destruct Hq as (n & <- & Hn).
        specialize (H5 n Hn). split; apply inject_Z_lt; lia.
      * exists x, y. unfold reduceMedianMaxGap, reduceMedianNobs.
        rewrite Hx, Hy. simpl. repeat split; assumption.
Qed.

Lemma searchsorted_right_le (a : list Q) (v : Q) :
  (searchsorted_right a v <= length a)%nat.
Proof. apply filter_length_le. Qed.

Lemma sn_scan_too_few (m : SupernovaMetric) (dataSlice : list visit) :
  dataSlice <> [] ->
  ~ 1 + redshift m == 0 ->
  ~ resolution m == 0 ->
  (Z.of_nat (length dataSlice) <= Nbetween m)%Z ->
  sn_scan m dataSlice = Ok sn_init.
Proof.
  intros Hne Hz Hres Hfew. unfold sn_scan.
  assert (Hsorted : sort_by_time dataSlice <> []).
  { intros Hnil. apply Hne. apply Permutation_nil.
    rewrite <- Hnil. apply sort_by_time_perm. }
  destruct (np_min_ok (l := map expMJD (sort_by_time dataSlice))) as [lo Hlo].
  { intros Hnil. apply map_eq_nil in Hnil. contradiction. }
  rewrite Hlo. cbn [rbind].
  destruct (Qeq_bool (1 + redshift m) 0) eqn:Ez.
  { apply Qeq_bool_iff in Ez. contradiction. }
  match goal with
  | |- context [np_max ?t] => destruct (np_max_ok (l := t)) as [hi Hhi]
  end.
  { intros Hnil. apply map_eq_nil in Hnil. apply map_eq_nil in Hnil. contradiction. }
  cbv zeta. rewrite Hhi. cbn [rbind].
  destruct (Qeq_bool (resolution m) 0) eqn:Er.
  { apply Qeq_bool_iff in Er. contradiction. }
  rewrite np_where_none.
  - reflexivity.
  - intros [r l] Hin. apply in_combine_l in Hin.
    apply in_map_iff in Hin. destruct Hin as (ft & <- & _).
    cbn [fst snd]. rewrite Z.gtb_ltb. apply Z.ltb_ge.
    match goal with
    | |- context [searchsorted_right ?t ?v] =>
        pose proof (searchsorted_right_le t v) as Hr
    end.
    set (k := searchsorted_right _ _) in *.
    rewrite !length_map in Hr. unfold sort_by_time in Hr. rewrite sort_length in Hr.
    lia.
Qed.

(** X17.  A slice whose visits in a valid filter number at most [Nbetween] holds
    no window with enough observations: [run] returns the dict of zero
    sequences. *)
Theorem SupernovaMetric_run_too_few (m : SupernovaMetric) (s : list visit) :
  List.filter (goodFilters m) s <> [] ->
  ~ 1 + redshift m == 0 ->
  ~ resolution m == 0 ->
  (Z.of_nat (length (List.filter (goodFilters m) s)) <= Nbetween m)%Z ->
  returned (SupernovaMetric_run m) s = Ok (Dict 0 [] []).
Proof.
  intros Hne Hz Hres Hfew.
  unfold returned, SupernovaMetric_run, bind, read_slice, lift, ret. cbn [fst]. cbv zeta.
  rewrite (@sn_scan_too_few m _ Hne Hz Hres Hfew).
  destruct (List.filter (goodFilters m) s); [congruence|reflexivity].
Qed.

(** ** SupernovaMetric: the effect of uniqueBlocks *)

Ltac sn_fields :=
  cbn [with_uniqueBlocks redshift Tmin Tmax Nbetween Nfilt Tless Nless Tmore Nmore
       peakGap snrCut singleDepthLimit resolution uniqueBlocks SN_badval filterNames].

Ltac sn_split_goal :=
  repeat match goal with
         | |- context [if ?c then _ else _] => destruct c eqn:?
         | |- context [rbind ?r _] => destruct r eqn:?; cbn [rbind]
         end.

Lemma sn_step_unique_le (m : SupernovaMetric) (dataSlice : list visit)
  (time finetime : list Q) (left right : list nat) (su sa su' sa' : sn_state)
  (i index : nat) :
  sn_step (with_uniqueBlocks m true) dataSlice time finetime left right su i index = Ok su' ->
  sn_step (with_uniqueBlocks m false) dataSlice time finetime left right sa i index = Ok sa' ->
  right_side sa = (-1)%Z ->
  (result_count su <= result_count sa)%Z ->
  right_side sa' = (-1)%Z /\ (result_count su' <= result_count sa')%Z.
Proof.
  intros Hu Ha Hr Hc. revert Hu Ha.
  unfold sn_step. cbv zeta. sn_fields. rewrite Hr.
  assert (Hnoskip : (Z.of_nat i <=? -1)%Z = false) by (apply Z.leb_gt; lia).
  rewrite Hnoskip.
  sn_split_goal;
    intros Hu Ha; try discriminate;
    injection Hu as <-; injection Ha as <-;
    cbn [right_side result_count]; split; try assumption; lia.
Qed.

Lemma sn_loop_unique_le (m : SupernovaMetric) (dataSlice : list visit)
  (time finetime : list Q) (left right : list nat) (ind : list nat) :
  forall (su sa su' sa' : sn_state) (i : nat),
    sn_loop (with_uniqueBlocks m true) dataSlice time finetime left right su i ind = Ok su' ->
    sn_loop (with_uniqueBlocks m false) dataSlice time finetime left right sa i ind = Ok sa' ->
    right_side sa = (-1)%Z ->
    (result_count su <= result_count sa)%Z ->
    (result_count su' <= result_count sa')%Z.
Proof.
  induction ind as [|index ind IH]; intros su sa su' sa' i Hu Ha Hr Hc; simpl in Hu, Ha.
  - injection Hu as <-. injection Ha as <-. exact Hc.
  - destruct (sn_step (with_uniqueBlocks m true) dataSlice time finetime left right su i index)
      as [su1|] eqn:Eu; [|discriminate].
    destruct (sn_step (with_uniqueBlocks m false) dataSlice time finetime left right sa i index)
      as [sa1|] eqn:Ea; [|discriminate].
    simpl in Hu, Ha.
    destruct (sn_step_unique_le _ _ _ _ _ _ _ _ _ _ Eu Ea Hr Hc) as [Hr1 Hc1].
    eapply IH; eassumption.
Qed.

Lemma sn_scan_unique_le (m : SupernovaMetric) (dataSlice : list visit) (su sa : sn_state) :
  sn_scan (with_uniqueBlocks m true) dataSlice = Ok su ->
  sn_scan (with_uniqueBlocks m false) dataSlice = Ok sa ->
  (result_count su <= result_count sa)%Z.
Proof.
  unfold sn_scan. cbv zeta. sn_fields.
  sn_split_goal; intros Hu Ha; try discriminate.
  eapply sn_loop_unique_le; [exact Hu|exact Ha|reflexivity|reflexivity].
Qed.

(** X18.  Counting unique sequences never gives more than counting all of them:
    on the same slice, the count with [uniqueBlocks] set is at most the
    count without. *)
Theorem SupernovaMetric_uniqueBlocks_lowers_count (m : SupernovaMetric) (s : list visit)
  (r1 r2 : Z) (g1 g2 : list Q) (n1 n2 : list Z) :
  returned (SupernovaMetric_run (with_uniqueBlocks m true)) s = Ok (Dict r1 g1 n1) ->
  returned (SupernovaMetric_run (with_uniqueBlocks m false)) s = Ok (Dict r2 g2 n2) ->
  (r1 <= r2)%Z.
Proof.
  intros Hu Ha.
  destruct (sn_run_invariant _ _ Hu) as (su & Hsu & -> & _).
  destruct (sn_run_invariant _ _ Ha) as (sa & Hsa & -> & _).
  eapply sn_scan_unique_le; [exact Hsu|exact Hsa].
Qed.

(** ** SupernovaMetric: the recorded gaps *)

Lemma roll_differences (a : list Q) :
  map2 Qminus (tl a) (tl (np_roll1 0 a)) = np_diff a.
Proof.
  destruct a as [|x a]; [reflexivity|].
  unfold np_roll1. cbn [tl].
  revert x. induction a as [|y a IH]; intros x; [reflexivity|].
  change (removelast (x :: y :: a)) with (x :: removelast (y :: a)).
  change (np_diff (x :: y :: a)) with ((y - x) :: np_diff (y :: a)).
  unfold map2 in *. cbn [combine map fst snd]. f_equal. apply IH.
Qed.

Lemma StronglySorted_filter (f : Q -> bool) (l : list Q) :
  StronglySorted Qle l -> StronglySorted Qle (List.filter f l).
Proof.
  induction 1 as [|x l Hs IH Hall]; simpl; [constructor|].
  destruct (f x); [|exact IH].
  constructor; [exact IH|].
  rewrite Forall_forall in *. intros y Hy. apply Hall.
  apply filter_In in Hy. apply Hy.
Qed.

Lemma StronglySorted_skipn (l : list Q) (n : nat) :
  StronglySorted Qle l -> StronglySorted Qle (skipn n l).
Proof.
  intros Hs. revert n. induction Hs as [|x l Hs IH Hall]; intros [|n]; simpl;
    try constructor; try assumption. apply IH.
Qed.

Lemma StronglySorted_firstn (l : list Q) (n : nat) :
  StronglySorted Qle l -> StronglySorted Qle (firstn n l).
Proof.
  intros Hs. revert n. induction Hs as [|x l Hs IH Hall]; intros [|n]; simpl;
    try constructor.
  - apply IH.
  - rewrite Forall_forall in *. intros y Hy. apply Hall.
    rewrite <- (firstn_skipn n l). apply in_or_app. left; exact Hy.
Qed.

(** What the loop keeps true of the recorded gaps when the times are in
    order. *)
Lemma sn_step_gaps_nonneg (m : SupernovaMetric) (dataSlice : list visit)
  (time finetime : list Q) (left right : list nat) (st st' : sn_state) (i index : nat) :
  StronglySorted Qle time ->
  sn_step m dataSlice time finetime left right st i index = Ok st' ->
  Forall (fun g => 0 <= g) (maxGap_acc st) ->
  Forall (fun g => 0 <= g) (maxGap_acc st').
Proof.
  intros Htime Hstep Hinv. unfold sn_step in Hstep. cbv zeta in Hstep.
  repeat match type of Hstep with
         | (if (2 <=? _)%nat then _ else _) = _ => fail 1
         | (if ?c then _ else _) = _ => destruct c eqn:?
         | rbind (count_bright _ _ _ _ _) _ = _ =>
             destruct (count_bright _ _ _ _ _) eqn:?; cbn [rbind] in Hstep
         | Raise _ = Ok _ => discriminate Hstep
         | Ok _ = Ok _ => injection Hstep as <-
         end; try exact Hinv.
  match type of Hstep with
  | rbind (if (2 <=? ?n)%nat then _ else _) _ = _ =>
      destruct (Nat.leb_spec 2 n) as [H2|H2]
  end.
  - rewrite roll_differences in Hstep.
    match type of Hstep with
    | rbind (np_max ?d) _ = _ => destruct (np_max d) as [g|e] eqn:Eg; [|discriminate Hstep]
    end.
    cbn [rbind] in Hstep.
    destruct (Qltb g (peakGap m)); injection Hstep as <-; [|exact Hinv].
    cbn [maxGap_acc]. apply Forall_app. split; [exact Hinv|].
    constructor; [|constructor].
    apply np_max_spec in Eg. destruct Eg as [Hin _].
    revert Hin. apply np_diff_sorted_nonneg.
    rewrite take_at_where. apply StronglySorted_filter.
    apply StronglySorted_map_monotone; [intros u w Huw; lra|].
    unfold py_slice. apply StronglySorted_firstn, StronglySorted_skipn, Htime.
  - cbn [rbind] in Hstep.
    match type of Hstep with
    | (if ?c then _ else _) = _ => destruct c eqn:Elt
    end; injection Hstep as <-; [|exact Hinv].
    exfalso. unfold Qltb in Elt. apply negb_true_iff in Elt.
    assert (Hle : peakGap m <= peakGap m + 1000000) by lra.
    apply Qle_bool_iff in Hle. congruence.
Qed.

Lemma sn_loop_gaps_nonneg (m : SupernovaMetric) (dataSlice : list visit)
  (time finetime : list Q) (left right : list nat) (ind : list nat) :
  StronglySorted Qle time ->
  forall (st st' : sn_state) (i : nat),
    sn_loop m dataSlice time finetime left right st i ind = Ok st' ->
    Forall (fun g => 0 <= g) (maxGap_acc st) ->
    Forall (fun g => 0 <= g) (maxGap_acc st').
Proof.
  intros Htime. induction ind as [|index ind IH]; intros st st' i Hloop Hinv; simpl in Hloop.
  - injection Hloop as <-. exact Hinv.
  - destruct (sn_step m dataSlice time finetime left right st i index) as [st1|e] eqn:E;
      [|discriminate].
    simpl in Hloop. eapply IH; [exact Hloop|].
    eapply sn_step_gaps_nonneg; eassumption.
Qed.

(** X15.  For a redshift above -1, every maximum gap in the dict [run] returns is
    a gap between two observations taken in time order: it is not negative
    (and, being accepted, it is below [peakGap]). *)
Theorem SupernovaMetric_run_gaps_range (m : SupernovaMetric) (s : list visit)
  (result : Z) (maxGap : list Q) (Nobs : list Z) :
  0 < 1 + redshift m ->
  returned (SupernovaMetric_run m) s = Ok (Dict result maxGap Nobs) ->
  Forall (fun g => 0 <= g /\ g < peakGap m) maxGap.
Proof.
  intros Hz Hrun.
  destruct (sn_run_invariant _ _ Hrun) as (st & Hscan & -> & -> & ->).
  pose proof (sn_scan_invariant _ _ Hscan) as (_ & _ & _ & Hlt & _).
  assert (Hge : Forall (fun g => 0 <= g) (maxGap_acc st)).
  { unfold sn_scan in Hscan. cbv zeta in Hscan.
    sn_cases Hscan.
    eapply sn_loop_gaps_nonneg; [|exact Hscan|constructor].
    apply StronglySorted_map_monotone.
    - intros u w Huw. apply rescale_monotone; assumption.
    - apply sorted_times. }
  rewrite Forall_forall in *. intros g Hg. split; [apply Hge, Hg|apply Hlt, Hg].
Qed.

(** ** UniformityMetric on evenly spaced visits *)

Lemma fold_left_Qmin2_head (l : list Q) (x : Q) :
  (forall y, In y l -> x <= y) -> fold_left Qmin2 l x = x.
Proof.
  revert x. induction l as [|z l IH]; intros x Hall; simpl; [reflexivity|].
  assert (Hxz : Qmin2 x z = x).
  { unfold Qmin2. rewrite (proj2 (Qle_bool_iff x z)); [reflexivity|].
    apply Hall. left; reflexivity. }
  rewrite Hxz. apply IH. intros y Hy. apply Hall. right; exact Hy.
Qed.

Lemma StronglySorted_map_seq {A : Type} (R : A -> A -> Prop) (F : nat -> A) (n : nat) :
  (forall i j, (i < j)%nat -> R (F i) (F j)) ->
  forall a, StronglySorted R (map F (seq a n)).
Proof.
  intros Hmono. induction n as [|n IH]; intros a; simpl; constructor.
  - apply IH.
  - apply Forall_map, Forall_forall. intros j Hj. apply in_seq in Hj.
    apply Hmono. lia.
Qed.

Lemma nth_map_seq0 (F : nat -> Q) (n i : nat) :
  (i < n)%nat -> nth i (map F (seq 0 n)) 0 = F i.
Proof.
  intros Hi.
  rewrite (nth_indep _ 0 (F 0%nat)) by (rewrite length_map, length_seq; exact Hi).
  rewrite (map_nth F (seq 0 n) 0%nat i), seq_nth by exact Hi. reflexivity.
Qed.

Lemma Qnat_S (n : nat) : Qnat (S n) == Qnat n + 1.
Proof.
  unfold Qnat. rewrite Nat2Z.inj_succ, <- Z.add_1_r, inject_Z_plus. reflexivity.
Qed.

Lemma Qnat_nonneg (n : nat) : 0 <= Qnat n.
Proof. change 0 with (Qnat 0). apply Qnat_le. lia. Qed.

(** X13.  On [N >= 2] visits evenly spaced over exactly the survey length, the
    first at [t0] and the last at [t0 + surveyLength * 365.25], the
    uniformity is [1/(N-1)]: the offset by the second-smallest date turns
    the [i]-th date [(i-1)/(N-1)] into [i/(N-1)], which is compared with
    [i/N]. *)
Theorem UniformityMetric_run_evenly_spaced
  (m : UniformityMetric) (s : list visit) (t0 h : Q) (N : nat) :
  (2 <= N)%nat ->
  0 < h ->
  map expMJD s = map (fun k => t0 + Qnat k * h) (seq 0 N) ->
  surveyLength m * 365.25 == Qnat (N - 1) * h ->
  exists D, returned (UniformityMetric_run m) s = Ok (Num D) /\ D == 1 / Qnat (N - 1).
Proof.
  intros HN Hh Hcol Hscale.
  set (scale := surveyLength m * 365.25) in *.
  set (f := fun k => t0 + Qnat k * h) in *.
  set (lo := f 0%nat).
  set (F := fun k => (f k - lo) / scale).
  assert (Hn1 : 1 <= Qnat (N - 1)).
  { change 1 with (Qnat 1). apply Qnat_le. lia. }
  assert (Hspos : 0 < scale).
  { rewrite Hscale. apply Qmult_lt_0_compat; lra. }
  assert (Hmin : np_min (map f (seq 0 N)) = Ok lo).
  { destruct N as [|N]; [lia|]. simpl. f_equal. apply fold_left_Qmin2_head.
    intros y Hy. apply in_map_iff in Hy. destruct Hy as (k & <- & _).
    subst lo f. simpl. pose proof (Qnat_nonneg k).
    assert (0 <= Qnat k * h) by (apply Qmult_le_0_compat; lra).
    change (Qnat 0) with 0. lra. }
  assert (Hmono : forall i j, (i < j)%nat -> Qle_bool (F i) (F j) = true).
  { intros i j Hij. apply Qle_bool_iff. subst F. cbv beta.
    apply rescale_monotone; [exact Hspos|]. subst f. cbv beta.
    pose proof (Qnat_le (Nat.lt_le_incl _ _ Hij)).
    assert (Qnat i * h <= Qnat j * h) by (apply Qmult_le_compat_r; lra). lra. }
  assert (Hdates : np_sort (map (fun t => (t - lo) / scale) (map f (seq 0 N)))
                   = map F (seq 0 N)).
  { rewrite map_map. fold F. unfold np_sort. apply sort_sorted_id.
    apply StronglySorted_map_seq. exact Hmono. }
  assert (Hlen : length (map F (seq 0 N)) = N) by (rewrite length_map, length_seq; reflexivity).
  destruct (@ks_statistic (map F (seq 0 N))) as (D & HD & Hmax); [lia|].
  exists D. split.
  - unfold returned, UniformityMetric_run, bind, read_slice, lift, ret. cbn [fst]. cbv zeta.
    rewrite Hcol, Hmin, length_map, length_seq.
    destruct (Nat.eqb_spec N 1) as [E|_]; [lia|].
    cbn [fst]. fold scale.
    destruct (Qeq_bool scale 0) eqn:Ez.
    { apply Qeq_bool_iff in Ez. lra. }
    rewrite Hdates.
    destruct (py_index (map F (seq 0 N)) 1) as [d1|e] eqn:E1; simpl in HD; [|discriminate].
    cbn [fst].
    destruct (np_max _) as [x|e] eqn:E2; simpl in HD; [|discriminate].
    cbn [fst]. exact HD.
  - (* every deviation is i / (N (N-1)) *)
    assert (Hdev : forall i, (1 <= i <= N)%nat ->
               ks_deviation (map F (seq 0 N)) i == Qnat i / (Qnat N * Qnat (N - 1))).
    { intros i Hi. unfold ks_deviation. rewrite Hlen.
      rewrite !nth_map_seq0 by lia.
      assert (HNq : Qnat N == Qnat (N - 1) + 1).
      { replace N with (S (N - 1)) at 1 by lia. apply Qnat_S. }
      assert (Hiq : Qnat i == Qnat (i - 1) + 1).
      { replace i with (S (i - 1)) at 1 by lia. apply Qnat_S. }
      pose proof (Qnat_nonneg (i - 1)) as Hi0.
      set (n1 := Qnat (N - 1)) in *. set (i1 := Qnat (i - 1)) in *.
      assert (Hval : Qnat i / Qnat N - F (i - 1)%nat - F 1%nat
                     == - (Qnat i / (Qnat N * n1))).
      { subst F f lo. cbv beta. change (Qnat 1) with 1. change (Qnat 0) with 0.
        fold i1. rewrite Hscale, HNq, Hiq. field.
        repeat split; lra. }
      rewrite Hval, Qabs_opp. apply Qabs_pos.
      apply Qle_shift_div_l.
      - rewrite HNq. apply Qmult_lt_0_compat; lra.
      - rewrite Hiq. lra. }
    destruct Hmax as [(i0 & Hi0 & HDi) Hall]. rewrite Hlen in Hi0, Hall.
    assert (HNq : Qnat N == Qnat (N - 1) + 1).
    { replace N with (S (N - 1)) at 1 by lia. apply Qnat_S. }
    assert (HNpos : 0 < Qnat N) by (rewrite HNq; lra).
    assert (Htop : Qnat N / (Qnat N * Qnat (N - 1)) == 1 / Qnat (N - 1)).
    { field. split; lra. }
    apply Qle_antisym.
    + rewrite HDi, (Hdev i0 Hi0), <- Htop.
      unfold Qdiv. apply Qmult_le_compat_r.
      * apply Qnat_le. lia.
      * apply Qlt_le_weak, Qinv_lt_0_compat, Qmult_lt_0_compat; lra.
    + rewrite <- Htop, <- (Hdev N) by lia. apply Hall. lia.
Qed.

(** ** TemplateExistsMetric *)













(** ** AstroPrecMetric: signal to noise, and the atmospheric floor *)

Module AstroPrecBounds.
Import Reals Lra AstroPrec AstroPrecFacts.
Local Open Scope R_scope.

(** X19.  [m52snr]: a star at the limiting depth has a signal-to-noise ratio of
    5; the ratio is positive, grows with the depth, and gains a factor 10
    for every 2.5 magnitudes of depth. *)
Theorem m52snr_spec (m m5 : R) :
  m52snr m m = 5 /\
  0 < m52snr m m5 /\
  (forall m5', m5 <= m5' -> m52snr m m5 <= m52snr m m5') /\
  m52snr m (m5 + 2.5) = 10 * m52snr m m5.
Proof.
  unfold m52snr. cbv zeta.
  split; [|split; [|split]].
  - replace (-0.4 * (m - m)) with 0 by lra.
    rewrite Rpower_O by lra. lra.
  - apply Rmult_lt_0_compat; [lra|]. unfold Rpower. apply exp_pos.
  - intros m5' Hle. apply Rmult_le_compat_l; [lra|].
    apply Rle_Rpower; lra.
  - replace (-0.4 * (m - (m5 + 2.5))) with (-0.4 * (m - m5) + 1) by lra.
    rewrite Rpower_plus, Rpower_1 by lra. lra.
Qed.

Lemma precision_mas_floor (m : AstroPrecMetric) (v : visit) :
  1000 * Rabs (atm_limit m) <= precision_mas m v.
Proof.
  unfold precision_mas. apply Rmult_le_compat_l; [lra|].
  rewrite <- sqrt_Rsqr_abs. apply sqrt_le_1_alt.
  rewrite Rsqr_pow2.
  match goal with |- _ <= ?p ^ 2 + _ => pose proof (pow2_ge_0 p) end.
  lra.
Qed.

Lemma total_lower_bound (c : R) (l : list R) :
  (forall x, In x l -> c <= x) -> INR (length l) * c <= total l.
Proof.
  unfold total. induction l as [|x l IH]; intros Hall.
  - simpl. lra.
  - cbn [length fold_right]. rewrite S_INR.
    pose proof (Hall x (or_introl eq_refl)).
    assert (INR (length l) * c <= fold_right Rplus 0 l).
    { apply IH. intros y Hy. apply Hall. right; exact Hy. }
    lra.
Qed.

(** X20.  The mean precision never goes below the atmospheric floor:
    [1000 * |atm_limit|] milliarcseconds.  On an empty slice the mean, and
    so the result, is not-a-number. *)
Theorem AstroPrecMetric_run_floor (m : AstroPrecMetric) :
  returned (AstroPrecMetric_run m) [] = Ok RNaN /\
  forall (v : visit) (s : list visit),
  exists x,
    returned (AstroPrecMetric_run m) (v :: s) = Ok (RNum x) /\
    1000 * Rabs (atm_limit m) <= x.
Proof.
  split; [reflexivity|].
  intros v s. eexists. split; [apply AstroPrecMetric_run_nonempty|].
  unfold mean. rewrite length_map.
  assert (Hn : 0 < INR (length (v :: s))).
  { cbn [length]. rewrite S_INR. pose proof (pos_INR (length s)). lra. }
  assert (Hb : INR (length (v :: s)) * (1000 * Rabs (atm_limit m))
               <= total (map (precision_mas m) (v :: s))).
  { rewrite <- (length_map (precision_mas m) (v :: s)).
    apply total_lower_bound.
    intros x Hx. apply in_map_iff in Hx. destruct Hx as (w & <- & _).
    apply precision_mas_floor. }
  apply (Rmult_le_reg_l (INR (length (v :: s)))); [exact Hn|].
  replace (INR (length (v :: s))
           * (total (map (precision_mas m) (v :: s)) / INR (length (v :: s))))
    with (total (map (precision_mas m) (v :: s))) by (field; lra).
  exact Hb.
Qed.
Lemma m52snr_spec_witness : m52snr 20 24 <= m52snr 20 25.
Proof.
  apply (proj1 (proj2 (proj2 (m52snr_spec 20 24)))). lra.
Defined.
End AstroPrecBounds.

(** ** InterNightGapsMetric: the gaps between nights *)

Lemma drop_repeats_increasing (l : list Z) :
  StronglySorted Z.le l -> StronglySorted Z.lt (drop_repeats l).
Proof.
  induction 1 as [|y l Hs IH Hall].
  - constructor.
  - destruct l as [|z l].
    + simpl. constructor; constructor.
    + change (drop_repeats (y :: z :: l))
        with (if (y =? z)%Z then drop_repeats (z :: l) else y :: drop_repeats (z :: l)).
      destruct (Z.eqb_spec y z) as [->|Hne]; [exact IH|].
      constructor; [exact IH|].
      apply Forall_forall. intros w Hw. apply (proj1 (drop_repeats_in _ _)) in Hw.
      inversion Hs as [|? ? _ Hzl]; subst.
      inversion Hall as [|? ? Hyz _]; subst.
      rewrite Forall_forall in Hzl.
      apply in_inv in Hw.
      destruct Hw as [<-|Hw]; [lia|]. specialize (Hzl _ Hw). lia.
Qed.

Lemma filter_length_lt {A : Type} (f : A -> bool) (l : list A) (x : A) :
  In x l -> f x = false -> (length (List.filter f l) < length l)%nat.
Proof.
  induction l as [|y l IH]; intros Hin Hf; [destruct Hin|].
  simpl. destruct Hin as [->|Hin].
  - rewrite Hf. pose proof (filter_length_le f l). lia.
  - specialize (IH Hin Hf). destruct (f y); simpl; lia.
Qed.

Lemma filter_length_pos {A : Type} (f : A -> bool) (l : list A) (x : A) :
  In x l -> f x = true -> (1 <= length (List.filter f l))%nat.
Proof.
  intros Hin Hf.
  assert (H : In x (List.filter f l)) by (apply filter_In; split; assumption).
  destruct (List.filter f l); [destruct H|simpl; lia].
Qed.

Lemma py_take_in_range (a : list Q) (idx : list nat) :
  Forall (fun i => (i < length a)%nat) idx ->
  py_take a (map Z.of_nat idx) = Ok (map (fun i => nth i a 0) idx).
Proof.
  induction 1 as [|i idx Hi _ IH]; [reflexivity|].
  cbn [map py_take]. rewrite (py_index_nth a (i := i) 0 Hi), IH. reflexivity.
Qed.

Lemma removelast_map {A B : Type} (f : A -> B) (l : list A) :
  removelast (map f l) = map f (removelast l).
Proof.
  induction l as [|x l IH]; [reflexivity|].
  destruct l as [|y l]; [reflexivity|].
  change (removelast (map f (x :: y :: l))) with (f x :: removelast (map f (y :: l))).
  rewrite IH. reflexivity.
Qed.

Lemma tl_map {A B : Type} (f : A -> B) (l : list A) : tl (map f l) = map f (tl l).
Proof. destruct l; reflexivity. Qed.

(** The pairs of [combine (tl l) (removelast l)] are the pairs of
    neighbours of [l], the later one first. *)
Lemma neighbours_increasing (l : list Z) :
  StronglySorted Z.lt l ->
  forall a b, In (a, b) (combine (tl l) (removelast l)) ->
              (b < a)%Z /\ In a l /\ In b l.
Proof.
  induction 1 as [|x l Hs IH Hall]; intros a b Hin; [destruct Hin|].
  destruct l as [|y l]; [destruct Hin|].
  change (combine (tl (x :: y :: l)) (removelast (x :: y :: l)))
    with ((y, x) :: combine (tl (y :: l)) (removelast (y :: l))) in Hin.
  destruct Hin as [E|Hin].
  - injection E as <- <-. inversion Hall; subst.
    split; [assumption|]. split; [right; left; reflexivity|left; reflexivity].
  - destruct (IH a b Hin) as (Hlt & Ha & Hb).
    split; [exact Hlt|]. split; right; assumption.
Qed.

Lemma neighbours_length {A : Type} (l : list A) :
  length (combine (tl l) (removelast l)) = (length l - 1)%nat.
Proof.
  rewrite length_combine, removelast_firstn_len, length_firstn.
  destruct l; simpl; lia.
Qed.

Lemma StronglySorted_nth_le (l : list Q) (i j : nat) :
  StronglySorted Qle l -> (i <= j)%nat -> (j < length l)%nat ->
  nth i l 0 <= nth j l 0.
Proof.
  intros Hs. revert i j. induction Hs as [|x l Hs IH Hall]; intros i j Hij Hj.
  - simpl in Hj. lia.
  - destruct i as [|i], j as [|j]; simpl in *; try lia.
    + apply Qle_refl.
    + rewrite Forall_forall in Hall. apply Hall, nth_In. lia.
    + apply IH; lia.
Qed.

(** X11.  With the night column in order once the slice is sorted by time, and
    at least two distinct nights, [InterNightGapsMetric.run] with the
    default median raises no [IndexError] and returns a number that is not
    negative: every gap runs from the last visit of a night to the first
    visit of the next. *)
Theorem InterNightGapsMetric_run_nonneg (badval : Q) (s : list visit) :
  StronglySorted Z.le (map night (sort_by_time s)) ->
  (2 <= distinct_nights s)%nat ->
  exists x,
    returned (InterNightGapsMetric_run (GapsMetric_default badval)) s = Ok (Num x) /\
    0 <= x.
Proof.
  intros Hordered Hdistinct.
  unfold InterNightGapsMetric_run. rewrite returned_after_sort.
  set (ds := sort_by_time s) in *.
  set (nights := map night ds) in *.
  set (times := map expMJD ds).
  set (U := np_uniqueZ nights).
  assert (HUlen : length U = distinct_nights s).
  { apply np_uniqueZ_length. apply Permutation_map, sort_by_time_perm. }
  assert (HUinc : StronglySorted Z.lt U).
  { apply drop_repeats_increasing, np_sortZ_sorted. }
  assert (HUin : forall u, In u U -> In u nights).
  { intros u Hu. unfold U, np_uniqueZ, np_sortZ in Hu.
    apply (proj1 (drop_repeats_in _ _)) in Hu. apply (sort_in Z.leb nights u). exact Hu. }
  assert (Hlen : length times = length nights) by (unfold times, nights; rewrite !length_map; reflexivity).
  set (first := fun u => searchsortedZ_left nights u).
  set (last := fun u => (searchsortedZ_right nights u - 1)%nat).
  assert (Hfirst : forall u, In u U -> (first u < length times)%nat).
  { intros u Hu. rewrite Hlen. unfold first, searchsortedZ_left.
    apply filter_length_lt with (x := u); [apply HUin, Hu|apply Z.ltb_irrefl]. }
  assert (Hright : forall u, In u U -> (1 <= searchsortedZ_right nights u <= length times)%nat).
  { intros u Hu. rewrite Hlen. unfold searchsortedZ_right. split.
    - apply filter_length_pos with (x := u); [apply HUin, Hu|apply Z.leb_refl].
    - apply filter_length_le. }
  assert (HlastZ : map (fun u => (Z.of_nat (searchsortedZ_right nights u) - 1)%Z) (removelast U)
                   = map Z.of_nat (map last (removelast U))).
  { rewrite map_map. apply map_ext_in. intros u Hu.
    assert (HuU : In u U).
    { clear - Hu. induction U as [|x l IH]; [destruct Hu|].
      destruct l as [|y l]; [destruct Hu|].
      change (removelast (x :: y :: l)) with (x :: removelast (y :: l)) in Hu.
      destruct Hu as [<-|Hu]; [left; reflexivity|right; apply IH, Hu]. }
    specialize (Hright u HuU). unfold last. lia. }
  assert (Htake1 : py_take times (tl (map (fun u => Z.of_nat (searchsortedZ_left nights u)) U))
                   = Ok (map (fun i => nth i times 0) (map first (tl U)))).
  { rewrite tl_map, <- (map_map first Z.of_nat). apply py_take_in_range.
    apply Forall_map, Forall_forall. intros u Hu. apply Hfirst.
    destruct U; [destruct Hu|right; exact Hu]. }
  assert (Htake2 : py_take times
                     (removelast (map (fun u => (Z.of_nat (searchsortedZ_right nights u) - 1)%Z) U))
                   = Ok (map (fun i => nth i times 0) (map last (removelast U)))).
  { rewrite removelast_map, HlastZ. apply py_take_in_range.
    apply Forall_map, Forall_forall. intros u Hu.
    assert (HuU : In u U).
    { clear - Hu. induction U as [|x l IH]; [destruct Hu|].
      destruct l as [|y l]; [destruct Hu|].
      change (removelast (x :: y :: l)) with (x :: removelast (y :: l)) in Hu.
      destruct Hu as [<-|Hu]; [left; reflexivity|right; apply IH, Hu]. }
    specialize (Hright u HuU). unfold last. lia. }
  set (diff := map2 Qminus (map (fun i => nth i times 0) (map first (tl U)))
                           (map (fun i => nth i times 0) (map last (removelast U)))).
  assert (Hdiff : diff = map (fun p => nth (first (fst p)) times 0 - nth (last (snd p)) times 0)
                             (combine (tl U) (removelast U))).
  { unfold diff, map2. rewrite !map_map.
    generalize (tl U) (removelast U). intros l1.
    induction l1 as [|a l1 IH]; intros l2; [reflexivity|].
    destruct l2 as [|b l2]; [reflexivity|]. simpl. f_equal. apply IH. }
  destruct (@np_median_nonneg diff) as (x & Hx & Hx0).
  - intros Hnil.
    assert (H0 : length diff = 0%nat) by (rewrite Hnil; reflexivity).
    rewrite Hdiff, length_map, neighbours_length in H0. lia.
  - intros d Hd. rewrite Hdiff in Hd. apply in_map_iff in Hd.
    destruct Hd as ([a b] & <- & Hab). cbn [fst snd].
    destruct (neighbours_increasing HUinc _ _ Hab) as (Hlt & Ha & Hb).
    assert (Hidx : (last b <= first a)%nat).
    { unfold last, first, searchsortedZ_right, searchsortedZ_left.
      pose proof (@filter_length_mono Z (fun x => (x <=? b)%Z) (fun x => (x <? a)%Z) nights) as Hm.
      assert (Hm' := Hm ltac:(intros z Hz; apply Z.leb_le in Hz; apply Z.ltb_lt; lia)).
      lia. }
    pose proof (@StronglySorted_nth_le times (last b) (first a) (sorted_times s) Hidx
                  (Hfirst a Ha)).
    lra.
  - exists x. split; [|exact Hx0].
    unfold returned, bind, read_slice, lift, ret. cbn [fst]. cbv zeta.
    fold ds. fold nights. fold times. fold U.
    destruct (Nat.ltb_spec (length U) 2) as [Hlt|_]; [lia|].
    rewrite Htake1. cbn [fst]. rewrite Htake2. cbn [fst].
    fold diff. cbn [reduceFunc GapsMetric_default]. unfold median_reducer.
    cbn [fst]. rewrite Hx. reflexivity.
Qed.

(** ** bin/sciencePerformance.py *)

Lemma list_ascii_of_string_app (a b : string) :
  list_ascii_of_string (a ++ b) = list_ascii_of_string a ++ list_ascii_of_string b.
Proof.
  induction a as [|c a IH]; simpl; [reflexivity|]. rewrite IH. reflexivity.
Qed.

Lemma filter_all {A : Type} (f : A -> bool) (l : list A) :
  (forall x, In x l -> f x = true) -> List.filter f l = l.
Proof.
  induction l as [|x l IH]; intros H; simpl; [reflexivity|].
  rewrite (H x) by (left; reflexivity). f_equal.
  apply IH. intros y Hy. apply H. right; exact Hy.
Qed.

(** X21.  For a pair of columns [p ++ "RA"] and [p ++ "Dec"], where [p] holds
    neither an [R] nor an [A], the characters of the first found in the
    second are [p]; the metadata label is [" (non-dithered)"] when [p] is
    ["field"] and [" (p)"] otherwise. *)
Theorem slicermetadata_spec (p : string) :
  (forall a, In a (list_ascii_of_string p) -> a <> "R"%char /\ a <> "A"%char) ->
  commonname (p ++ "RA") (p ++ "Dec") = p /\
  slicermetadata (p ++ "RA") (p ++ "Dec")
  = if String.eqb p "field" then " (non-dithered)"%string else (" (" ++ p ++ ")")%string.
Proof.
  intros Hp.
  assert (Hc : commonname (p ++ "RA") (p ++ "Dec") = p).
  { unfold commonname. rewrite !list_ascii_of_string_app, filter_app.
    set (f := fun a => existsb _ _).
    assert (Hkeep : List.filter f (list_ascii_of_string p) = list_ascii_of_string p).
    { apply filter_all. intros a Ha. subst f. cbv beta.
      apply existsb_exists. exists a. split; [apply in_or_app; left; exact Ha|].
      apply Ascii.eqb_refl. }
    assert (Hdrop : forall c, ~ In c (list_ascii_of_string p) ->
                              c <> "D"%char -> c <> "e"%char -> c <> "c"%char ->
                              f c = false).
    { intros c Hc HD He Hcc. subst f. cbv beta.
      destruct (existsb (Ascii.eqb c) _) eqn:E; [|reflexivity].
      apply existsb_exists in E. destruct E as (x & Hx & Hcx).
      apply Ascii.eqb_eq in Hcx. subst x.
      apply in_app_or in Hx. destruct Hx as [Hx|Hx]; [contradiction|].
      simpl in Hx. intuition congruence. }
    rewrite Hkeep. simpl List.filter.
    rewrite (Hdrop "R"%char), (Hdrop "A"%char); try discriminate.
    - rewrite app_nil_r. apply string_of_list_ascii_of_string.
    - intros H. apply Hp in H. destruct H as [_ H]. apply H. reflexivity.
    - intros H. apply Hp in H. destruct H as [H _]. apply H. reflexivity. }
  split; [exact Hc|].
  unfold slicermetadata. rewrite Hc. reflexivity.
Qed.





(** X23.  Scaling the plot ranges to the run length keeps a range in order (for a
    run length that is not negative) and leaves it alone for a run of ten
    years. *)
Theorem scale_nvisitsRange_spec (runLength : Q) (lo hi : Z) :
  (runLength == 10 -> scale_nvisitsRange runLength lo = lo) /\
  (0 <= runLength -> (lo <= hi)%Z ->
     (scale_nvisitsRange runLength lo <= scale_nvisitsRange runLength hi)%Z) /\
  (0 <= runLength -> (0 <= lo)%Z -> (0 <= scale_nvisitsRange runLength lo)%Z).
Proof.
  unfold scale_nvisitsRange. split; [|split].
  - intros H10. rewrite <- (Qfloor_Z lo) at 2. apply Qfloor_comp.
    rewrite H10. field.
  - intros HL Hle. apply Qfloor_resp_le. apply Qmult_le_compat_r.
    + rewrite <- Zle_Qle. exact Hle.
    + apply Qle_shift_div_l; lra.
  - intros HL Hlo. change 0%Z with (Qfloor 0). apply Qfloor_resp_le.
    apply Qmult_le_0_compat.
    + change 0 with (inject_Z 0). rewrite <- Zle_Qle. exact Hlo.
    + apply Qle_shift_div_l; lra.
Qed.

(** ** Concrete instances of the further properties *)

Lemma NRevisitsMetric_run_monotone_witness :
  exists x1 x2,
    returned (NRevisitsMetric_run (NRevisitsMetric_init 30 false (-666))) close_visits
    = Ok (Num x1) /\
    returned (NRevisitsMetric_run (NRevisitsMetric_init 1440 false (-666))) close_visits
    = Ok (Num x2) /\
    x1 <= x2.
Proof.
  apply NRevisitsMetric_run_monotone.
  - reflexivity.
  - reflexivity.
  - unfold Qle. simpl. lia.
Defined.

Lemma RapidRevisitMetric_run_few_visits_witness :
  returned (RapidRevisitMetric_run (RapidRevisitMetric_init 100 0 1 (-666))) far_visits
  = Ok (Num (-666)).
Proof.
  apply (RapidRevisitMetric_run_few_visits 100 0 1 (-666) far_visits).
  right. simpl. lia.
Defined.

Lemma RapidRevisitMetric_run_empty_interval_witness :
  returned (RapidRevisitMetric_run (RapidRevisitMetric_init 2 1 0 (-666))) close_visits
  = Ok (Num (-666)).
Proof.
  apply RapidRevisitMetric_run_empty_interval. reflexivity.
Defined.

Lemma reversed_pair_time_determines : time_determines reversed_pair.
Proof.
  intros a b [<-|[<-|[]]] [<-|[<-|[]]] H; try reflexivity;
    exfalso; vm_compute in H; discriminate H.
Defined.

Lemma sorting_metrics_order_independent_witness :
  returned (IntraNightGapsMetric_run (GapsMetric_default (-666))) reversed_pair
  = returned (IntraNightGapsMetric_run (GapsMetric_default (-666))) [visit_at 1; visit_at 2] /\
  returned (InterNightGapsMetric_run (GapsMetric_default (-666))) reversed_pair
  = returned (InterNightGapsMetric_run (GapsMetric_default (-666))) [visit_at 1; visit_at 2] /\
  returned (AveGapMetric_run (GapsMetric_default (-666))) reversed_pair
  = returned (AveGapMetric_run (GapsMetric_default (-666))) [visit_at 1; visit_at 2] /\
  returned TemplateExistsMetric_run reversed_pair
  = returned TemplateExistsMetric_run [visit_at 1; visit_at 2].
Proof.
  apply sorting_metrics_order_independent.
  - apply perm_swap.
  - exact reversed_pair_time_determines.
Defined.

Lemma copying_metrics_order_independent_witness :
  returned (NRevisitsMetric_run (NRevisitsMetric_init 30 true (-666))) reversed_pair
  = returned (NRevisitsMetric_run (NRevisitsMetric_init 30 true (-666))) [visit_at 1; visit_at 2] /\
  returned (RapidRevisitMetric_run (RapidRevisitMetric_init 2 0 1 (-666))) reversed_pair
  = returned (RapidRevisitMetric_run (RapidRevisitMetric_init 2 0 1 (-666))) [visit_at 1; visit_at 2] /\
  returned (UniformityMetric_run uniformity_default) reversed_pair
  = returned (UniformityMetric_run uniformity_default) [visit_at 1; visit_at 2] /\
  returned (SupernovaMetric_run (SupernovaMetric_default true)) reversed_pair
  = returned (SupernovaMetric_run (SupernovaMetric_default true)) [visit_at 1; visit_at 2].
Proof.
  apply copying_metrics_order_independent.
  - apply perm_swap.
  - exact reversed_pair_time_determines.
Defined.

Lemma IntraNightGaps_single_night_witness :
  returned (IntraNightGapsMetric_run (GapsMetric_default (-666))) one_night
  = returned (AveGapMetric_run (GapsMetric_default (-666))) one_night.
Proof.
  apply (IntraNightGaps_single_night (GapsMetric_default (-666)) one_night (n := 1)).
  - intros v [<-|[<-|[<-|[]]]]; reflexivity.
  - simpl. lia.
Defined.

Lemma IntraNightGaps_distinct_nights_witness :
  returned (IntraNightGapsMetric_run (GapsMetric_default (-666))) three_visits
  = Ok (Num (-666)).
Proof.
  apply (IntraNightGaps_distinct_nights (GapsMetric_default (-666)) three_visits).
  repeat constructor; simpl; intros H; repeat destruct H as [H|H]; try discriminate H; exact H.
Defined.

Lemma AveGapMetric_run_nonneg_witness :
  exists x,
    returned (AveGapMetric_run (GapsMetric_default (-666))) three_visits = Ok (Num x) /\
    0 <= x.
Proof.
  apply AveGapMetric_run_nonneg. simpl. lia.
Defined.

Lemma sn_slice_run :
  returned (SupernovaMetric_run (SupernovaMetric_default true)) sn_slice
  = Ok (Dict 2 [10; 10] [9%Z; 9%Z]).
Proof. vm_compute. reflexivity. Defined.

Lemma SupernovaMetric_run_dict_invariant_witness :
  2%Z = Z.of_nat (length [10; 10]) /\
  length [9%Z; 9%Z] = length [10; 10] /\
  Forall (fun g => g < peakGap (SupernovaMetric_default true)) [10; 10] /\
  Forall (fun n => (Nbetween (SupernovaMetric_default true) < n
                    <= Z.of_nat (length (List.filter (goodFilters (SupernovaMetric_default true))
                                                     sn_slice)))%Z)
         [9%Z; 9%Z].
Proof.
  exact (SupernovaMetric_run_dict_invariant (SupernovaMetric_default true) sn_slice sn_slice_run).
Defined.

Lemma SupernovaMetric_reducers_on_dict_witness :
  exists x y,
    reduceMedianMaxGap (SupernovaMetric_default true) (Dict 2 [10; 10] [9%Z; 9%Z])
    = Ok (Num x) /\
    x < peakGap (SupernovaMetric_default true) /\
    reduceMedianNobs (SupernovaMetric_default true) (Dict 2 [10; 10] [9%Z; 9%Z])
    = Ok (Num y) /\
    inject_Z (Nbetween (SupernovaMetric_default true)) < y.
Proof.
  apply (proj2 (SupernovaMetric_reducers_on_dict
                  (SupernovaMetric_default true) sn_slice sn_slice_run)).
  lia.
Defined.

Lemma SupernovaMetric_run_too_few_witness :
  returned (SupernovaMetric_run (SupernovaMetric_default false)) two_filter_visits
  = Ok (Dict 0 [] []).
Proof.
  apply SupernovaMetric_run_too_few.
  - vm_compute. intros H. discriminate H.
  - intros H. vm_compute in H. discriminate H.
  - intros H. vm_compute in H. discriminate H.
  - vm_compute. intros H. discriminate H.
Defined.

Lemma SupernovaMetric_uniqueBlocks_lowers_count_witness : (2 <= 7)%Z.
Proof.
  apply (SupernovaMetric_uniqueBlocks_lowers_count
            (SupernovaMetric_default true) sn_slice
            (g1 := [10; 10]) (n1 := [9%Z; 9%Z])
            (g2 := [10; 10; 10; 10; 10; 10; 10])
            (n2 := [9%Z; 9%Z; 9%Z; 9%Z; 9%Z; 9%Z; 8%Z])).
  - vm_compute. reflexivity.
  - vm_compute. reflexivity.
Defined.

Lemma SupernovaMetric_run_gaps_range_witness :
  Forall (fun g => 0 <= g /\ g < peakGap (SupernovaMetric_default true)) [10; 10].
Proof.
  apply (SupernovaMetric_run_gaps_range (SupernovaMetric_default true) sn_slice
           (result := 2) (Nobs := [9%Z; 9%Z])).
  - reflexivity.
  - exact sn_slice_run.
Defined.

Lemma UniformityMetric_run_evenly_spaced_witness :
  exists D,
    returned (UniformityMetric_run uniformity_default) even_visits = Ok (Num D) /\
    D == 1 / Qnat (3 - 1).
Proof.
  apply (@UniformityMetric_run_evenly_spaced uniformity_default even_visits 0 1826.25 3).
  - lia.
  - reflexivity.
  - reflexivity.
  - vm_compute. reflexivity.
Defined.

Lemma InterNightGapsMetric_run_nonneg_witness :
  exists x,
    returned (InterNightGapsMetric_run (GapsMetric_default (-666))) three_visits
    = Ok (Num x) /\
    0 <= x.
Proof.
  apply InterNightGapsMetric_run_nonneg.
  - vm_compute. repeat constructor; intros H; discriminate H.
  - vm_compute. repeat constructor.
Defined.

Lemma slicermetadata_spec_witness :
  commonname "fieldRA" "fieldDec" = "field"%string /\
  slicermetadata "fieldRA" "fieldDec" = " (non-dithered)"%string.
Proof.
  apply (slicermetadata_spec "field").
  intros a H. simpl in H.
  repeat destruct H as [H|H]; try (subst a; split; discriminate). destruct H.
Defined.


Lemma scale_nvisitsRange_spec_witness :
  scale_nvisitsRange 10 20 = 20%Z /\
  (scale_nvisitsRange 3 20 <= scale_nvisitsRange 3 80)%Z.
Proof.
  split.
  - apply (proj1 (scale_nvisitsRange_spec 10 20 80)). reflexivity.
  - apply (proj1 (proj2 (scale_nvisitsRange_spec 3 20 80))).
    + unfold Qle. simpl. lia.
    + lia.
Defined.
